(** * fetch_icons.py: bookmark icon fetcher

    A shallow embedding of [src/fetch_icons.py] and the properties of its
    file-name sanitizers, extension resolver, collision-safe writer, fetch
    task and result merge.

    Python [str] values are sequences of Unicode code points: they are
    modelled as lists of code points ([N]).  Library functions whose
    behaviour is fixed by tables that are not part of the repository (the
    Unicode character database, [urllib.parse], [mimetypes], [pathlib]) are
    section variables; the facts about them that a proof relies on are
    section hypotheses, each one stated where it is introduced. *)

From Stdlib Require Import String Ascii DecimalString DecimalNat.
From stdpp Require Import base numbers option list gmap.

Open Scope N_scope.

(** ** Python strings *)

Definition codepoint := N.
Definition str := list codepoint.

(** A Python string literal of ASCII characters. *)
Definition py (s : string) : str :=
  List.map N_of_ascii (list_ascii_of_string s).

Definition SLASH : codepoint := 47.
Definition BACKSLASH : codepoint := 92.
Definition UNDERSCORE : codepoint := 95.
Definition HYPHEN : codepoint := 45.
Definition DOT : codepoint := 46.
Definition PERCENT : codepoint := 37.
Definition SEMICOLON : codepoint := 59.

Definition in_range (lo hi c : codepoint) : bool := (lo <=? c) && (c <=? hi).

(** [str.isspace] for one code point, which is also what [\s] matches in a
    [str] pattern and what [str.strip()] removes. *)
Definition is_space (c : codepoint) : bool :=
  in_range 9 13 c || in_range 28 32 c || (c =? 133) || (c =? 160)
  || (c =? 5760) || in_range 8192 8202 c || (c =? 8232) || (c =? 8233)
  || (c =? 8239) || (c =? 8287) || (c =? 12288).

(** Unicode general category Cc: the C0 controls, DEL and the C1 controls. *)
Definition is_control (c : codepoint) : bool :=
  (c <? 32) || in_range 127 159 c.

Definition is_ascii (c : codepoint) : bool := c <? 128.

(** [[A-Za-z0-9]] *)
Definition ascii_alnum (c : codepoint) : bool :=
  in_range 48 57 c || in_range 65 90 c || in_range 97 122 c.

(** [[A-Za-z0-9\-\._]] *)
Definition ascii_name_char (c : codepoint) : bool :=
  ascii_alnum c || (c =? HYPHEN) || (c =? DOT) || (c =? UNDERSCORE).

(** [s.replace(a, b)] for one-character [a] and [b]. *)
Definition replace_char (a b : codepoint) (s : str) : str :=
  List.map (fun c => if c =? a then b else c) s.

Fixpoint lstrip (s : str) : str :=
  match s with
  | [] => []
  | c :: s' => if is_space c then lstrip s' else s
  end.

Definition rstrip (s : str) : str := rev (lstrip (rev s)).

(** [s.strip()] *)
Definition strip (s : str) : str := rstrip (lstrip s).

(** [re.sub(r'\s+', '_', s)]: every maximal run of whitespace becomes one
    underscore.  [in_run] tells that the previous character was whitespace. *)
Fixpoint sub_spaces_from (in_run : bool) (s : str) : str :=
  match s with
  | [] => []
  | c :: s' =>
      if is_space c
      then (if in_run then sub_spaces_from true s'
            else UNDERSCORE :: sub_spaces_from true s')
      else c :: sub_spaces_from false s'
  end.

Definition sub_spaces (s : str) : str := sub_spaces_from false s.

(** [s[:n]] for a Python integer [n]: a negative [n] counts from the end. *)
Definition slice_to (n : Z) (s : str) : str :=
  if (0 <=? n)%Z then take (Z.to_nat n) s
  else take (length s - Z.to_nat (- n))%nat s.

(** [len(s) > n] *)
Definition longer_than (s : str) (n : Z) : bool := (n <? Z.of_nat (length s))%Z.

(** [if len(s) > max_len: s = s[:max_len]] *)
Definition truncate (max_len : Z) (s : str) : str :=
  if longer_than s max_len then slice_to max_len s else s.

(** ** Filename sanitizer *)

Section Sanitizer.

(** [urllib.parse.unquote] with its defaults (UTF-8, [errors='replace']),
    which never raises on a [str]. *)
Variable unquote : str -> str.

(** [str.isalnum] on the code points above the ASCII range, as given by
    the Unicode character database. *)
Variable uni_alnum : codepoint -> bool.

(** [\w] in a [str] pattern: alphanumeric in any script, or underscore. *)
Definition is_word (c : codepoint) : bool :=
  if is_ascii c then ascii_alnum c || (c =? UNDERSCORE) else uni_alnum c.

(** The complement of [[^\w\-\._]]. *)
Definition keep_char (c : codepoint) : bool :=
  is_word c || (c =? HYPHEN) || (c =? DOT) || (c =? UNDERSCORE).

(** Lines 66-74: everything between the empty-input test and the
    truncation. *)
Definition clean_unicode (name : str) : str :=
  let name := strip (unquote name) in
  let name := replace_char BACKSLASH UNDERSCORE
                (replace_char SLASH UNDERSCORE name) in
  let name := sub_spaces name in
  List.filter keep_char name.

Definition safe_filename_unicode (name : str) (max_len : Z) : str :=
  match name with
  | [] => py "unnamed"
  | _ =>
      let name := truncate max_len (clean_unicode name) in
      match name with
      | [] => py "file"
      | _ => name
      end
  end.

(** [name.encode('ascii', errors='ignore').decode('ascii')] *)
Definition ascii_only (s : str) : str := List.filter is_ascii s.

Definition clean_ascii (name : str) : str :=
  strip (List.filter ascii_name_char (ascii_only name)).

(** Nothing in the body raises, so the [except] branch is never taken. *)
Definition ascii_fallback_name (name : str) (max_len : Z) : str :=
  let ascii_name := clean_ascii name in
  let ascii_name := match ascii_name with [] => py "file" | _ => ascii_name end in
  truncate max_len ascii_name.

End Sanitizer.

Definition MAX_LEN_UNICODE : Z := 120.
Definition MAX_LEN_ASCII : Z := 80.

(** ** Extension resolver *)

(** [CONTENT_TYPE_EXT], in the order of the source. *)
Definition CONTENT_TYPE_EXT : list (str * str) :=
  [ (py "image/png", py ".png");
    (py "image/x-icon", py ".ico");
    (py "image/vnd.microsoft.icon", py ".ico");
    (py "image/vnd.microsoft.icon; charset=binary", py ".ico");
    (py "image/jpeg", py ".jpg");
    (py "image/jpg", py ".jpg");
    (py "image/svg+xml", py ".svg");
    (py "image/webp", py ".webp");
    (py "image/gif", py ".gif");
    (py "image/vnd.microsoft.icon; charset=utf-8", py ".ico") ].

(** [d.get(k)] on a dictionary kept as an association list. *)
Fixpoint dict_get {V : Type} (d : list (str * V)) (k : str) : option V :=
  match d with
  | [] => None
  | (k', v) :: d' => if decide (k' = k) then Some v else dict_get d' k
  end.

(** [s.split(c)[0]] *)
Fixpoint split_head (c : codepoint) (s : str) : str :=
  match s with
  | [] => []
  | x :: s' => if x =? c then [] else x :: split_head c s'
  end.

(** [s.rfind(c)] scanning from position [i] with [acc] the last match so
    far; [-1] when there is none. *)
Fixpoint rfind_from (i : Z) (acc : Z) (c : codepoint) (s : str) : Z :=
  match s with
  | [] => acc
  | x :: s' => rfind_from (i + 1) (if x =? c then i else acc) c s'
  end.

Definition rfind (c : codepoint) (s : str) : Z := rfind_from 0 (-1) c s.

(** [posixpath.splitext(p)[1]]: the text from the last dot of the last
    path component, unless that component has only leading dots before it. *)
Definition splitext_ext (p : str) : str :=
  let sepIndex := rfind SLASH p in
  let dotIndex := rfind DOT p in
  if (sepIndex <? dotIndex)%Z then
    let filenameIndex := (sepIndex + 1)%Z in
    let stem := drop (Z.to_nat filenameIndex) (take (Z.to_nat dotIndex) p) in
    if existsb (fun c => negb (c =? DOT)) stem
    then drop (Z.to_nat dotIndex) p
    else []
  else [].

(** The two attributes of [urlparse(url)] that the program reads. *)
Record parsed_url := { url_path : str; url_hostname : option str }.

Section Resolver.

(** [urllib.parse.urlparse]; [None] when it raises [ValueError]. *)
Variable urlparse : str -> option parsed_url.

(** [str.lower] *)
Variable lower : str -> str.

(** First component of [mimetypes.guess_type(url)]. *)
Variable guess_type : str -> option str.

Definition ext_from_url (url : str) : str :=
  match urlparse url with
  | Some p => lower (splitext_ext (url_path p))
  | None => []
  end.

(** [resp.headers.get('Content-Type', '').split(';')[0].strip().lower()] *)
Definition normalize_content_type (header : option str) : str :=
  lower (strip (split_head SEMICOLON (default [] header))).

(** [choose_extension(resp, url)], with [header] the response's
    Content-Type header when it has one. *)
Definition choose_extension (header : option str) (url : str) : str :=
  let ct := normalize_content_type header in
  match dict_get CONTENT_TYPE_EXT ct with
  | Some e => e
  | None =>
      let ext := ext_from_url url in
      if negb (bool_decide (ext = [])) && (length ext <=? 5)%nat then ext
      else
        match guess_type url with
        | Some guessed =>
            match guessed, dict_get CONTENT_TYPE_EXT guessed with
            | _ :: _, Some e => e
            | _, _ => py ".png"
            end
        | None => py ".png"
        end
  end.

End Resolver.

(** ** Records, exceptions and the world *)

(** A value decoded by [json.load].  Numbers are kept as integers. *)
#[local] Unset Elimination Schemes.
Inductive json :=
  | JNull
  | JBool (b : bool)
  | JNum (n : Z)
  | JStr (s : str)
  | JArr (l : list json)
  | JObj (o : list (str * json)).
#[local] Set Elimination Schemes.

(** Python truthiness, as used by [x or ''] *)
Definition truthy (v : json) : bool :=
  match v with
  | JNull => false
  | JBool b => b
  | JNum n => negb (n =? 0)%Z
  | JStr s => negb (bool_decide (s = []))
  | JArr l => negb (bool_decide (l = []))
  | JObj o => negb (bool_decide (o = []))
  end.

(** [d[k] = v]: an existing key keeps its position, a new key goes last. *)
Fixpoint dict_set {V : Type} (d : list (str * V)) (k : str) (v : V) : list (str * V) :=
  match d with
  | [] => [(k, v)]
  | (k', v') :: d' =>
      if decide (k' = k) then (k, v) :: d' else (k', v') :: dict_set d' k v
  end.

(** The exceptions the program tells apart: [OSError] and its subclasses
    (which include the exceptions of [requests]), and every other
    [Exception].  The text is [str(e)]. *)
Inductive exn :=
  | OSError (msg : str)
  | OtherError (msg : str).

Definition exn_msg (e : exn) : str :=
  match e with OSError m => m | OtherError m => m end.

(** How a piece of code ends: it returns, it raises, or (for a loop run
    with a bound on its iterations) the bound is reached. *)
Inductive res (A : Type) :=
  | Ret (a : A)
  | Exc (e : exn)
  | Loop.
Arguments Ret {A} a.
Arguments Exc {A} e.
Arguments Loop {A}.

Definition res_bind {A B : Type} (m : res A) (k : A -> res B) : res B :=
  match m with
  | Ret a => k a
  | Exc e => Exc e
  | Loop => Loop
  end.

(** [type(v).__name__], as it appears in the text of an exception. *)
Definition type_name (v : json) : str :=
  match v with
  | JNull => py "NoneType"
  | JBool _ => py "bool"
  | JNum _ => py "int"
  | JStr _ => py "str"
  | JArr _ => py "list"
  | JObj _ => py "dict"
  end.

(** The text of [AttributeError] for an attribute that [v] lacks. *)
Definition no_attribute (v : json) (name : string) : exn :=
  OtherError (py "'" ++ type_name v ++ py "' object has no attribute '"
              ++ py name ++ py "'").

(** [(item.get(key) or '').strip()] *)
Definition get_text (item : json) (key : str) : res str :=
  match item with
  | JObj o =>
      match dict_get o key with
      | None => Ret (strip [])
      | Some v =>
          if truthy v then
            match v with
            | JStr s => Ret (strip s)
            | _ => Exc (no_attribute v "strip")
            end
          else Ret (strip [])
      end
  | _ => Exc (no_attribute item "get")
  end.

(** [item['icon'] = v] *)
Definition set_icon (item : json) (v : str) : res json :=
  match item with
  | JObj o => Ret (JObj (dict_set o (py "icon") (JStr v)))
  | JArr _ => Exc (OtherError (py "list indices must be integers or slices, not str"))
  | _ => Exc (OtherError (py "'" ++ type_name item
                          ++ py "' object does not support item assignment"))
  end.

(** What the body of a response yields to [iter_content]: a chunk, or an
    exception raised inside the copy loop. *)
Inductive stream_event :=
  | Chunk (b : list Byte.byte)
  | Fault (e : exn).

Record response := {
  status_code : Z;
  content_type : option str;
  body : list stream_event
}.

(** The part of the outside world a run acts on: the files that exist
    (the paths of which [exists()] is true, with their content), the URLs
    passed to [session.get], one entry per call whatever redirects the
    call follows, and the paths passed to [open]; latest first. *)
Record world := {
  files : gmap str (list Byte.byte);
  requests : list str;
  opens : list str
}.

Definition with_files (fs : gmap str (list Byte.byte)) (w : world) : world :=
  {| files := fs; requests := requests w; opens := opens w |}.

Definition log_request (url : str) (w : world) : world :=
  {| files := files w; requests := url :: requests w; opens := opens w |}.

Definition log_open (path : str) (w : world) : world :=
  {| files := files w; requests := requests w; opens := path :: opens w |}.

(** [str(outdir / filename)] for a relative one-component [filename]. *)
Definition joinpath (outdir filename : str) : str :=
  outdir ++ SLASH :: filename.

(** What [filepath.exists()] returns when it returns; the exception it
    can raise instead is added in section [RaisingExists]. *)
Definition path_exists (fs : gmap str (list Byte.byte)) (p : str) : bool :=
  bool_decide (is_Some (fs !! p)).

(** [f"{n}"] for a natural number. *)
Definition dec (n : nat) : str :=
  py (NilEmpty.string_of_uint (Nat.to_uint n)).

(** [f"{n}"] for an integer. *)
Definition decZ (n : Z) : str :=
  if (n <? 0)%Z then HYPHEN :: dec (Z.to_nat (- n)) else dec (Z.to_nat n).

(** The [k]-th name the writer tries: [base.ext], [base_1.ext], ... *)
Definition candidate (base ext : str) (k : nat) : str :=
  match k with
  | O => base ++ ext
  | S _ => base ++ UNDERSCORE :: dec k ++ ext
  end.

(** The loop of lines 160-163, entered with the current [filename] and
    [idx]; at most [fuel] tests of [exists()]. *)
Fixpoint free_name_loop (fuel : nat) (fs : gmap str (list Byte.byte))
    (outdir base ext : str) (filename : str) (idx : nat) : res str :=
  match fuel with
  | O => Loop
  | S fuel' =>
      if path_exists fs (joinpath outdir filename)
      then free_name_loop fuel' fs outdir base ext
             (base ++ UNDERSCORE :: dec idx ++ ext) (S idx)
      else Ret filename
  end.

(** Lines 156-163: the name to write to.  One [exists()] test more than
    there are files is enough for the loop to leave. *)
Definition free_name (fs : gmap str (list Byte.byte)) (outdir base ext : str) : res str :=
  free_name_loop (S (size fs)) fs outdir base ext (base ++ ext) 1.

(** The copy loop of lines 168-170 on an open file: the exception it
    raised if any, the events it did not consume, and the files after
    it. *)
Fixpoint copy_stream (path : str) (events : list stream_event)
    (fs : gmap str (list Byte.byte))
    : option exn * list stream_event * gmap str (list Byte.byte) :=
  match events with
  | [] => (None, [], fs)
  | Chunk b :: rest =>
      copy_stream path rest (<[path := default [] (fs !! path) ++ b]> fs)
  | Fault e :: rest => (Some e, rest, fs)
  end.

(** ** Fetch task *)

(** What [download_icon] returns, without the constant third component:
    [(ok, info)]. *)
Definition task_result := (bool * str)%type.

Section FetchTask.

Variable unquote : str -> str.
Variable uni_alnum : codepoint -> bool.
Variable urlparse : str -> option parsed_url.
Variable lower : str -> str.
Variable guess_type : str -> option str.

(** The exception [open(path, 'wb')] raises, when the operating system
    does not create the file. *)
Variable open_error : str -> option exn.

(** [session.get(icon_url, ...)]: a response, or the exception raised. *)
Variable http_get : str -> response + exn.

(** [str(Path(p).resolve())] *)
Variable resolve : str -> str.

(** Lines 167-170: open (creating or emptying the file), then copy. *)
Definition write_file (path : str) (events : list stream_event) (w : world)
    : option exn * list stream_event * world :=
  let w := log_open path w in
  match open_error path with
  | Some e => (Some e, events, w)
  | None =>
      let '(r, rest, fs) := copy_stream path events (<[path := []]> (files w)) in
      (r, rest, with_files fs w)
  end.

(** Line 142: [title or (urlparse(url).hostname or 'bookmark')].  A
    [ValueError] of [urlparse] is not caught by [download_icon]. *)
Definition base_name_of (title url : str) : res str :=
  match title with
  | _ :: _ => Ret title
  | [] =>
      match urlparse url with
      | None => Exc (OtherError (py "invalid URL"))
      | Some p =>
          match url_hostname p with
          | Some (c :: h) => Ret (c :: h)
          | _ => Ret (py "bookmark")
          end
      end
  end.

(** Lines 175-190: the handler of [OSError], entered with the events the
    first attempt left in the stream. *)
Definition write_fallback (w : world) (outdir base_name ext : str)
    (events : list stream_event) : res task_result * world :=
  let ascii_base := ascii_fallback_name base_name MAX_LEN_ASCII in
  match free_name (files w) outdir ascii_base ext with
  | Ret filename2 =>
      let filepath2 := joinpath outdir filename2 in
      match write_file filepath2 events w with
      | (None, _, w2) => (Ret (true, resolve filepath2), w2)
      | (Some e2, _, w2) => (Ret (false, py "write_error:" ++ exn_msg e2), w2)
      end
  | Exc e => (Exc e, w)
  | Loop => (Loop, w)
  end.

(** Lines 156-192: pick a free name, write, fall back once. *)
Definition write_icon (w : world) (outdir base_name ext : str)
    (events : list stream_event) : res task_result * world :=
  match free_name (files w) outdir base_name ext with
  | Ret filename =>
      let filepath := joinpath outdir filename in
      match write_file filepath events w with
      | (None, _, w1) => (Ret (true, resolve filepath), w1)
      | (Some (OSError _), rest, w1) =>
          write_fallback w1 outdir base_name ext rest
      | (Some (OtherError m), _, w1) => (Ret (false, py "error:" ++ m), w1)
      end
  | Exc e => (Exc e, w)
  | Loop => (Loop, w)
  end.

Definition download_icon (item : json) (outdir : str) (w : world)
    : res task_result * world :=
  match get_text item (py "title") with
  | Ret title =>
  match get_text item (py "url") with
  | Ret url =>
  match get_text item (py "icon") with
  | Ret icon_url =>
      if bool_decide (icon_url = []) then (Ret (false, py "no_icon_url"), w)
      else
        match base_name_of title url with
        | Ret base_name =>
            let base_name :=
              safe_filename_unicode unquote uni_alnum base_name MAX_LEN_UNICODE in
            let w := log_request icon_url w in
            match http_get icon_url with
            | inl resp =>
                if negb (status_code resp =? 200)%Z
                then (Ret (false, py "http_" ++ decZ (status_code resp)), w)
                else
                  let ext :=
                    choose_extension urlparse lower guess_type
                      (content_type resp) icon_url in
                  write_icon w outdir base_name ext (body resp)
            | inr e => (Ret (false, py "error:" ++ exn_msg e), w)
            end
        | Exc e => (Exc e, w)
        | Loop => (Loop, w)
        end
  | Exc e => (Exc e, w) | Loop => (Loop, w) end
  | Exc e => (Exc e, w) | Loop => (Loop, w) end
  | Exc e => (Exc e, w) | Loop => (Loop, w) end.

End FetchTask.

(** ** The writer when [exists()] raises

    [Path.exists()] returns [False] when the operating system answers
    ENOENT, ENOTDIR, EBADF or ELOOP and lets every other [OSError] through
    (ENAMETOOLONG for a name longer than the file system allows).  Both
    calls, lines 160 and 179, are outside every [try], so such an
    exception leaves [download_icon].  The definitions above are the case
    in which [exists()] raises for no path; the ones below have the
    general case. *)

Section RaisingExists.

(** The exception that [Path.exists()] raises for a path, when it does. *)
Variable exists_error : str -> option exn.

Variable unquote : str -> str.
Variable uni_alnum : codepoint -> bool.
Variable urlparse : str -> option parsed_url.
Variable lower : str -> str.
Variable guess_type : str -> option str.
Variable open_error : str -> option exn.
Variable http_get : str -> response + exn.
Variable resolve : str -> str.

(** [filepath.exists()] *)
Definition exists_or_raise (fs : gmap str (list Byte.byte)) (p : str) : res bool :=
  match exists_error p with
  | Some e => Exc e
  | None => Ret (path_exists fs p)
  end.

(** The candidates before the [k]-th were tested without an exception and
    exist. *)
Definition tested_below (fs : gmap str (list Byte.byte))
    (outdir base ext : str) (k : nat) : Prop :=
  forall j, (j < k)%nat ->
    exists_error (joinpath outdir (candidate base ext j)) = None
    ∧ is_Some (fs !! joinpath outdir (candidate base ext j)).

(** The loop of lines 160-163 (and 179-182), at most [fuel] tests. *)
Fixpoint free_name_loop_raising (fuel : nat) (fs : gmap str (list Byte.byte))
    (outdir base ext : str) (filename : str) (idx : nat) : res str :=
  match fuel with
  | O => Loop
  | S fuel' =>
      match exists_or_raise fs (joinpath outdir filename) with
      | Ret true =>
          free_name_loop_raising fuel' fs outdir base ext
            (base ++ UNDERSCORE :: dec idx ++ ext) (S idx)
      | Ret false => Ret filename
      | Exc e => Exc e
      | Loop => Loop
      end
  end.

(** Lines 156-163. *)
Definition free_name_raising (fs : gmap str (list Byte.byte))
    (outdir base ext : str) : res str :=
  free_name_loop_raising (S (size fs)) fs outdir base ext (base ++ ext) 1.

(** Lines 175-190; an exception of the search at line 179 is raised
    inside the handler and leaves the function. *)
Definition write_fallback_raising (w : world) (outdir base_name ext : str)
    (events : list stream_event) : res task_result * world :=
  let ascii_base := ascii_fallback_name base_name MAX_LEN_ASCII in
  match free_name_raising (files w) outdir ascii_base ext with
  | Ret filename2 =>
      let filepath2 := joinpath outdir filename2 in
      match write_file open_error filepath2 events w with
      | (None, _, w2) => (Ret (true, resolve filepath2), w2)
      | (Some e2, _, w2) => (Ret (false, py "write_error:" ++ exn_msg e2), w2)
      end
  | Exc e => (Exc e, w)
  | Loop => (Loop, w)
  end.

(** Lines 156-192. *)
Definition write_icon_raising (w : world) (outdir base_name ext : str)
    (events : list stream_event) : res task_result * world :=
  match free_name_raising (files w) outdir base_name ext with
  | Ret filename =>
      let filepath := joinpath outdir filename in
      match write_file open_error filepath events w with
      | (None, _, w1) => (Ret (true, resolve filepath), w1)
      | (Some (OSError _), rest, w1) =>
          write_fallback_raising w1 outdir base_name ext rest
      | (Some (OtherError m), _, w1) => (Ret (false, py "error:" ++ m), w1)
      end
  | Exc e => (Exc e, w)
  | Loop => (Loop, w)
  end.

(** [download_icon], lines 134-192. *)
Definition download_icon_raising (item : json) (outdir : str) (w : world)
    : res task_result * world :=
  match get_text item (py "title") with
  | Ret title =>
  match get_text item (py "url") with
  | Ret url =>
  match get_text item (py "icon") with
  | Ret icon_url =>
      if bool_decide (icon_url = []) then (Ret (false, py "no_icon_url"), w)
      else
        match base_name_of urlparse title url with
        | Ret base_name =>
            let base_name :=
              safe_filename_unicode unquote uni_alnum base_name MAX_LEN_UNICODE in
            let w := log_request icon_url w in
            match http_get icon_url with
            | inl resp =>
                if negb (status_code resp =? 200)%Z
                then (Ret (false, py "http_" ++ decZ (status_code resp)), w)
                else
                  let ext :=
                    choose_extension urlparse lower guess_type
                      (content_type resp) icon_url in
                  write_icon_raising w outdir base_name ext (body resp)
            | inr e => (Ret (false, py "error:" ++ exn_msg e), w)
            end
        | Exc e => (Exc e, w)
        | Loop => (Loop, w)
        end
  | Exc e => (Exc e, w) | Loop => (Loop, w) end
  | Exc e => (Exc e, w) | Loop => (Loop, w) end
  | Exc e => (Exc e, w) | Loop => (Loop, w) end.

End RaisingExists.

(** ** The extension resolver in the words of the specification *)

(** [choose_extension] read word for word: the header lowercased and cut
    at the first semicolon, without trimming, and the extension of the
    URL path as it is written, without lowercasing. *)
Definition choose_extension_as_worded (urlparse : str -> option parsed_url)
    (lower : str -> str) (guess_type : str -> option str)
    (header : option str) (url : str) : str :=
  let ct := lower (split_head SEMICOLON (default [] header)) in
  match dict_get CONTENT_TYPE_EXT ct with
  | Some e => e
  | None =>
      let ext := match urlparse url with
                 | Some p => splitext_ext (url_path p)
                 | None => []
                 end in
      if negb (bool_decide (ext = [])) && (length ext <=? 5)%nat then ext
      else
        match guess_type url with
        | Some guessed =>
            match guessed, dict_get CONTENT_TYPE_EXT guessed with
            | _ :: _, Some e => e
            | _, _ => py ".png"
            end
        | None => py ".png"
        end
  end.

(** The text neither begins nor ends with whitespace. *)
Definition trimmed (s : str) : Prop :=
  s = []
  ∨ ((exists a t, s = a :: t ∧ is_space a = false)
     ∧ (exists t z, s = t ++ [z] ∧ is_space z = false)).

(** [core] is the media type of a Content-Type header: what stands before
    the first semicolon, if there is one, without the whitespace around
    it. *)
Definition main_type_of (header core : str) : Prop :=
  exists ws1 ws2 rest,
    header = ws1 ++ core ++ ws2 ++ rest
    ∧ Forall (fun c => is_space c = true) ws1
    ∧ Forall (fun c => is_space c = true) ws2
    ∧ (rest = [] ∨ exists params, rest = SEMICOLON :: params)
    ∧ (SEMICOLON ∉ core) ∧ trimmed core.

(** [ext] is the extension of a path: the text from the last dot of the
    last component on, when that component has a character other than a
    dot before that dot, and the empty text otherwise. *)
Definition extension_of_path (p ext : str) : Prop :=
  exists dir name,
    p = dir ++ name ∧ (SLASH ∉ name)
    ∧ (dir = [] ∨ exists d, dir = d ++ [SLASH])
    ∧ (((DOT ∉ name) ∧ ext = [])
       ∨ exists stem t,
           name = stem ++ DOT :: t ∧ (DOT ∉ t)
           ∧ (((exists c, c ∈ stem ∧ c ≠ DOT) ∧ ext = DOT :: t)
              ∨ (Forall (fun c => c = DOT) stem ∧ ext = []))).

(** ** Pipeline coordinator *)

(** An element of [results]: [(index, ok, info)]. *)
Definition entry := (nat * bool * str)%type.

Definition entry_index (e : entry) : nat := e.1.1.

(** Lines 225-231: records without an icon URL are marked at once, the
    others become tasks.  [i] is the index of the head of [data]. *)
Fixpoint prepare (i : nat) (data : list json)
    : res (list entry * list (nat * json)) :=
  match data with
  | [] => Ret ([], [])
  | item :: rest =>
      res_bind (get_text item (py "icon")) (fun icon_url =>
      res_bind (prepare (S i) rest) (fun '(results, tasks) =>
        if bool_decide (icon_url = [])
        then Ret ((i, false, py "no_icon_url") :: results, tasks)
        else Ret (results, (i, item) :: tasks)))
  end.

(** Lines 240-243: the entry appended for a finished future. *)
Definition record_outcome (idx : nat) (r : res task_result) : res entry :=
  match r with
  | Ret (ok, info) => Ret (idx, ok, info)
  | Exc e => Ret (idx, false, py "exception:" ++ exn_msg e)
  | Loop => Loop
  end.

Section Coordinator.

Variable unquote : str -> str.
Variable uni_alnum : codepoint -> bool.
Variable urlparse : str -> option parsed_url.
Variable lower : str -> str.
Variable guess_type : str -> option str.
Variable open_error : str -> option exn.
Variable http_get : str -> response + exn.
Variable resolve : str -> str.

(** The order in which the futures of the submitted tasks complete.  Each
    task is taken to act on the world at once, at its completion. *)
Variable as_completed : list (nat * json) -> list (nat * json).

(** [str(Path(p).relative_to(base))]; [None] when it raises. *)
Variable relative_to : str -> str -> option str.

(** Lines 237-243: one entry per completed future. *)
Fixpoint collect (order : list (nat * json)) (outdir : str) (w : world)
    : res (list entry) * world :=
  match order with
  | [] => (Ret [], w)
  | (idx, item) :: rest =>
      let '(r, w1) :=
        download_icon unquote uni_alnum urlparse lower guess_type
          open_error http_get resolve item outdir w in
      match record_outcome idx r with
      | Ret e =>
          let '(r', w2) := collect rest outdir w1 in
          (res_bind r' (fun es => Ret (e :: es)), w2)
      | Exc x => (Exc x, w1)
      | Loop => (Loop, w1)
      end
  end.

(** How an entry of the results comes from a task: it is what
    [record_outcome] makes of the end of the task in some world. *)
Definition entry_of_task (outdir : str) (t : nat * json) (e : entry) : Prop :=
  exists wi,
    record_outcome t.1
      (download_icon unquote uni_alnum urlparse lower guess_type
         open_error http_get resolve t.2 outdir wi).1 = Ret e.

(** Lines 251-259: the text stored in the icon field for a success. *)
Definition local_icon (write_relative : bool) (parent : str) (info : str) : str :=
  if write_relative then default info (relative_to info parent) else info.

(** Lines 248-264.  [data[idx]] raises [IndexError] out of range. *)
Fixpoint merge (write_relative : bool) (parent : str)
    (results : list entry) (data : list json) : res (list json) :=
  match results with
  | [] => Ret data
  | (idx, ok, info) :: rest =>
      if ok then
        match data !! idx with
        | Some item =>
            res_bind (set_icon item (local_icon write_relative parent info))
              (fun item' => merge write_relative parent rest (<[idx := item']> data))
        | None => Exc (OtherError (py "list index out of range"))
        end
      else merge write_relative parent rest data
  end.

(** Lines 221-264 of [process_all]: the collection handed to [json.dump],
    the results list and the world after the run.  [parent] is
    [input_path.parent]. *)
Definition process_all (data : list json) (parent outdir : str)
    (write_relative : bool) (w : world)
    : res (list json * list entry * world) :=
  res_bind (prepare 0 data) (fun '(results0, tasks) =>
    let order := match tasks with [] => [] | _ => as_completed tasks end in
    let '(r, w') := collect order outdir w in
    res_bind r (fun task_results =>
      let results := results0 ++ task_results in
      res_bind (merge write_relative parent results data) (fun data' =>
        Ret (data', results, w')))).

End Coordinator.

(** ** Predicates on records *)

(** The value is a JSON object. *)
Definition is_obj (item : json) : Prop := exists o, item = JObj o.

(** Two records have the same fields in the same order, with the same
    value in every field other than icon. *)
Definition same_but_icon (item item' : json) : Prop :=
  exists o o',
    item = JObj o ∧ item' = JObj o'
    ∧ Forall2 (fun kv kv' => kv.1 = kv'.1 ∧ (kv.1 ≠ py "icon" -> kv.2 = kv'.2)) o o'.

(** A record from which [process_all] can read the icon field. *)
Definition readable (item : json) : Prop :=
  exists u, get_text item (py "icon") = Ret u.

(** ** Library instances for running the model

    Small stand-ins for the library functions, exact on the inputs the
    examples use: they let the definitions above be evaluated. *)

Definition hex_digit (c : codepoint) : option N :=
  if in_range 48 57 c then Some (c - 48)
  else if in_range 65 70 c then Some (c - 55)
  else if in_range 97 102 c then Some (c - 87)
  else None.

Definition hex_byte (a b : codepoint) : option N :=
  match hex_digit a, hex_digit b with
  | Some x, Some y => Some (16 * x + y)
  | _, _ => None
  end.

(** [unquote] on escapes of ASCII characters; other escapes are kept. *)
Fixpoint unquote_ascii (s : str) : str :=
  match s with
  | [] => []
  | c :: s' =>
      match s' with
      | a :: b :: rest =>
          match (if c =? PERCENT then hex_byte a b else None) with
          | Some v => if is_ascii v then v :: unquote_ascii rest
                      else c :: unquote_ascii s'
          | None => c :: unquote_ascii s'
          end
      | _ => c :: unquote_ascii s'
      end
  end.

(** The letters of the basic Russian alphabet, U+0410 to U+044F. *)
Definition cyrillic_alnum (c : codepoint) : bool := in_range 1040 1103 c.

(** [str.lower] on ASCII text. *)
Definition lower_ascii (s : str) : str :=
  List.map (fun c => if in_range 65 90 c then c + 32 else c) s.

Fixpoint take_until (stop : codepoint -> bool) (s : str) : str :=
  match s with
  | [] => []
  | c :: s' => if stop c then [] else c :: take_until stop s'
  end.

(** [urlparse] on URLs of the shape [scheme://host/path?query#fragment]. *)
Definition urlparse_simple (url : str) : option parsed_url :=
  let url := take_until (fun c => (c =? 63) || (c =? 35)) url in
  let scheme := split_head 58 url in
  match drop (length scheme) url with
  | 58 :: 47 :: 47 :: r =>
      let netloc := take_until (fun c => c =? SLASH) r in
      let host := split_head 58 netloc in
      Some {| url_path := drop (length netloc) r;
              url_hostname := match host with [] => None | _ => Some (lower_ascii host) end |}
  | _ => Some {| url_path := url; url_hostname := None |}
  end.

Definition guess_type_none (url : str) : option str := None.

(** A file system that refuses names with a character outside ASCII. *)
Definition ascii_only_fs (path : str) : option exn :=
  if forallb is_ascii path then None
  else Some (OSError (py "Invalid argument")).

(** The number of bytes of a text in UTF-8. *)
Definition utf8_length (s : str) : nat :=
  sum_list (map (fun c : codepoint =>
                   if c <? 128 then 1%nat else if c <? 2048 then 2%nat
                   else if c <? 65536 then 3%nat else 4%nat) s).

(** The last component of a path. *)
Definition last_component (p : str) : str :=
  drop (Z.to_nat (rfind SLASH p + 1)) p.

(** A file system with names of at most 255 bytes: for a longer name
    [os.stat] fails with ENAMETOOLONG, which [Path.exists()] does not
    swallow. *)
Definition long_name_fs (path : str) : option exn :=
  if (255 <? utf8_length (last_component path))%nat
  then Some (OSError (py "[Errno 36] File name too long: '" ++ path ++ py "'"))
  else None.

(** The CJK unified ideographs, which are alphanumeric. *)
Definition cjk_alnum (c : codepoint) : bool := (19968 <=? c) && (c <=? 40959).

(** A title of 120 ideographs, 360 bytes in UTF-8. *)
Definition long_title : str := replicate 120 20013.

(** A file system that creates every file. *)
Definition any_name_fs (path : str) : option exn := None.

Definition empty_world : world :=
  {| files := ∅; requests := []; opens := [] |}.

(** A server that answers every request with a two-chunk icon. *)
Definition icon_server (url : str) : response + exn :=
  inl {| status_code := 200;
         content_type := Some (py "image/x-icon");
         body := [Chunk [Byte.x00; Byte.x00]; Chunk [Byte.x01]] |}.

Definition not_found_server (url : str) : response + exn :=
  inl {| status_code := 404; content_type := None; body := [] |}.

Definition resolve_id (p : str) : str := p.

(** [relative_to] on path strings: strip [base] and the separator. *)
Definition relative_to_prefix (p base : str) : option str :=
  if bool_decide (take (length base) p = base) then
    match drop (length base) p with
    | c :: rest => if c =? SLASH then Some rest else None
    | [] => None
    end
  else None.

Definition bookmark (title url icon : string) : json :=
  JObj [(py "title", JStr (py title)); (py "url", JStr (py url));
        (py "icon", JStr (py icon))].

(** The text "Пример". *)
Definition primer : str := [1055; 1088; 1080; 1084; 1077; 1088].

(** Three records: two with the same title and icon URL, one whose icon
    field is blank. *)
Definition sample_data : list json :=
  [ bookmark "Example" "http://example.com" "http://example.com/favicon.ico";
    bookmark "x" "u" "  ";
    bookmark "Example" "http://example.com" "http://example.com/favicon.ico" ].

(** A record whose title is a number, which makes the fetch task raise,
    followed by a well-formed one. *)
Definition odd_data : list json :=
  [ JObj [(py "title", JNum 5); (py "icon", JStr (py "http://example.com/i.png"))];
    bookmark "Example" "http://example.com" "http://example.com/favicon.ico" ].

(** A run on an empty output directory [/home/icons], the record file
    being in [/home], with relative paths asked for; the futures complete
    in the reverse of the order of submission. *)
Definition sample_run (server : str -> response + exn)
    (open_error : str -> option exn) (data : list json)
    : res (list json * list entry * world) :=
  process_all unquote_ascii cyrillic_alnum urlparse_simple lower_ascii
    guess_type_none open_error server resolve_id (@rev (nat * json))
    relative_to_prefix data (py "/home") (py "/home/icons") true empty_world.

(** The records and the results of a run that ended. *)
Definition records_and_results (r : res (list json * list entry * world))
    : option (list json * list entry) :=
  match r with
  | Ret (data', results, _) => Some (data', results)
  | _ => None
  end.

(** A directory in which [x.png] and [x_1.png] exist. *)
Definition two_files : gmap str (list Byte.byte) :=
  <[py "/icons/x.png" := []]> (<[py "/icons/x_1.png" := []]> ∅).

(** A well-formed record followed by one whose icon is a number. *)
Definition malformed_data : list json :=
  [ bookmark "Example" "http://example.com" "http://example.com/favicon.ico";
    JObj [(py "title", JStr (py "x")); (py "icon", JNum 5)] ].

(** A fetch task of the sample run, on an empty output directory. *)
Definition sample_fetch (server : str -> response + exn)
    (open_error : str -> option exn) (item : json) : res task_result * world :=
  download_icon unquote_ascii cyrillic_alnum urlparse_simple lower_ascii
    guess_type_none open_error server resolve_id item (py "/home/icons")
    empty_world.

(** The same fetch task on a file system with names of at most 255
    bytes, for a record whose title is kept whole by the sanitizer. *)
Definition sample_fetch_raising (exists_error : str -> option exn) (item : json)
    : res task_result * world :=
  download_icon_raising exists_error unquote_ascii cjk_alnum urlparse_simple
    lower_ascii guess_type_none any_name_fs icon_server resolve_id item
    (py "/home/icons") empty_world.

(** The tasks submitted for the sample records. *)
Definition sample_tasks : list (nat * json) :=
  [ (0%nat, bookmark "Example" "http://example.com" "http://example.com/favicon.ico");
    (2%nat, bookmark "Example" "http://example.com" "http://example.com/favicon.ico") ].

(** The tasks executed one after another in the order given, on an
    empty output directory. *)
Definition sample_collect (order : list (nat * json)) : res (list entry) * world :=
  collect unquote_ascii cyrillic_alnum urlparse_simple lower_ascii
    guess_type_none any_name_fs icon_server resolve_id order
    (py "/home/icons") empty_world.

(** ** Quantities read off a run *)

(** Lines 246-261, the two counters only: [(success_count, fail_count)]
    after the loop over [results]. *)
Definition tally (results : list entry) : nat * nat :=
  fold_left (fun '(success_count, fail_count) '(_, ok, _) =>
               if ok : bool then (S success_count, fail_count)
               else (success_count, S fail_count))
    results (0%nat, 0%nat).

(** The [info] of the entries with [ok = True], in the order of
    [results]. *)
Definition success_infos (results : list entry) : list str :=
  omap (fun e : entry => if e.1.2 then Some e.2 else None) results.



(** A path of the form [outdir/name], where [name] has no path
    separator. *)
Definition directly_inside (outdir path : str) : Prop :=
  exists name, path = joinpath outdir name ∧ SLASH ∉ name.

(** From [w] to [w'] no file that existed was changed or removed, and
    only paths of the form [outdir/name] were created. *)
Definition only_adds_inside (outdir : str) (w w' : world) : Prop :=
  (forall q, is_Some (files w !! q) -> files w' !! q = files w !! q)
  ∧ (forall q, ¬ directly_inside outdir q -> files w' !! q = files w !! q).

(** * Properties *)

(** ** Characters and string primitives *)

Ltac unfold_chars :=
  unfold ascii_name_char, ascii_alnum, is_space, is_control, is_ascii,
    in_range, SLASH, BACKSLASH, UNDERSCORE, HYPHEN, DOT, PERCENT, SEMICOLON in *.

(** Decide every comparison of code points in the goal, dropping the
    impossible combinations on the way. *)
Ltac split_compare :=
  repeat match goal with
    | |- context [N.leb ?a ?b] => destruct (N.leb_spec a b); try lia
    | |- context [N.ltb ?a ?b] => destruct (N.ltb_spec a b); try lia
    | |- context [N.eqb ?a ?b] => destruct (N.eqb_spec a b); try lia
    end.

Ltac char_facts := unfold_chars; split_compare; simpl in *; try done; try lia.

Lemma ascii_name_char_not_space c :
  ascii_name_char c = true -> is_space c = false.
Proof. char_facts. Qed.

Lemma ascii_name_char_not_control c :
  ascii_name_char c = true -> is_control c = false.
Proof. char_facts. Qed.

Lemma ascii_name_char_plain c :
  ascii_name_char c = true -> c ≠ SLASH ∧ c ≠ BACKSLASH ∧ c ≠ PERCENT.
Proof. char_facts. Qed.

Lemma ascii_name_char_ascii c : ascii_name_char c = true -> is_ascii c = true.
Proof. char_facts. Qed.

Lemma space_not_percent c : is_space c = true -> c ≠ PERCENT.
Proof. char_facts. Qed.

Lemma filter_all {A} (f : A -> bool) (l : list A) :
  Forall (fun x => f x = true) (List.filter f l).
Proof.
  induction l as [|x l IH]; simpl; [constructor|].
  destruct (f x) eqn:E; [constructor|]; done.
Qed.

Lemma filter_keeps {A} (f : A -> bool) (P : A -> Prop) (l : list A) :
  Forall P l -> Forall P (List.filter f l).
Proof.
  induction 1 as [|x l Hx Hl IH]; simpl; [constructor|].
  destruct (f x); [constructor|]; done.
Qed.

Lemma filter_same {A} (f : A -> bool) (l : list A) :
  Forall (fun x => f x = true) l -> List.filter f l = l.
Proof.
  induction 1 as [|x l Hx Hl IH]; simpl; [done|]. by rewrite Hx, IH.
Qed.

Lemma lstrip_keeps (P : codepoint -> Prop) s : Forall P s -> Forall P (lstrip s).
Proof.
  induction 1 as [|c s Hc Hs IH]; simpl; [constructor|].
  destruct (is_space c); [done | by constructor].
Qed.

Lemma strip_keeps (P : codepoint -> Prop) s : Forall P s -> Forall P (strip s).
Proof.
  intros H. unfold strip, rstrip.
  apply Forall_rev, lstrip_keeps, Forall_rev, lstrip_keeps, H.
Qed.

Lemma lstrip_same s :
  Forall (fun c => is_space c = false) s -> lstrip s = s.
Proof. destruct 1 as [|c s Hc _]; simpl; [done|]. by rewrite Hc. Qed.

Lemma strip_same s :
  Forall (fun c => is_space c = false) s -> strip s = s.
Proof.
  intros H. unfold strip, rstrip. rewrite (lstrip_same s H).
  rewrite lstrip_same by (by apply Forall_rev). apply rev_involutive.
Qed.

Lemma lstrip_spaces s :
  Forall (fun c => is_space c = true) s -> lstrip s = [].
Proof. induction 1 as [|c s Hc _ IH]; simpl; [done|]. by rewrite Hc. Qed.

Lemma strip_spaces s :
  Forall (fun c => is_space c = true) s -> strip s = [].
Proof. intros H. unfold strip, rstrip. by rewrite (lstrip_spaces s H). Qed.

Lemma replace_char_same a b s : a ∉ s -> replace_char a b s = s.
Proof.
  unfold replace_char. induction s as [|c s IH]; simpl; [done|].
  rewrite not_elem_of_cons. intros [Hc Hs].
  destruct (N.eqb_spec c a); [congruence|]. by rewrite IH.
Qed.

Lemma replace_char_gone a b s : a ≠ b -> a ∉ replace_char a b s.
Proof.
  intros Hab. unfold replace_char. induction s as [|c s IH]; simpl.
  - apply not_elem_of_nil.
  - apply not_elem_of_cons. split; [|done].
    destruct (N.eqb_spec c a); congruence.
Qed.

Lemma sub_spaces_from_same flag s :
  Forall (fun c => is_space c = false) s -> sub_spaces_from flag s = s.
Proof.
  intros H. revert flag. induction H as [|c s Hc _ IH]; intros flag; simpl; [done|].
  by rewrite Hc, IH.
Qed.

Lemma slice_to_keeps (P : codepoint -> Prop) n s :
  Forall P s -> Forall P (slice_to n s).
Proof. intros H. unfold slice_to. destruct (0 <=? n)%Z; by apply Forall_take. Qed.

Lemma truncate_keeps (P : codepoint -> Prop) n s :
  Forall P s -> Forall P (truncate n s).
Proof.
  intros H. unfold truncate. destruct (longer_than s n); [|done].
  by apply slice_to_keeps.
Qed.

Lemma truncate_length n s :
  (0 <= n)%Z -> (length (truncate n s) <= Z.to_nat n)%nat.
Proof.
  intros Hn. unfold truncate, longer_than, slice_to.
  destruct (Z.ltb_spec n (Z.of_nat (length s))).
  - destruct (Z.leb_spec 0 n); [|lia]. rewrite length_take. lia.
  - lia.
Qed.

Lemma truncate_same n s :
  (Z.of_nat (length s) <= n)%Z -> truncate n s = s.
Proof.
  intros H. unfold truncate, longer_than.
  destruct (Z.ltb_spec n (Z.of_nat (length s))); [lia | done].
Qed.

Lemma truncate_nonempty n s : (1 <= n)%Z -> s ≠ [] -> truncate n s ≠ [].
Proof.
  intros Hn Hs. unfold truncate, longer_than, slice_to.
  destruct (Z.ltb_spec n (Z.of_nat (length s))); [|done].
  destruct (Z.leb_spec 0 n); [|lia].
  destruct s as [|c s]; [done|].
  destruct (Z.to_nat n) as [|k] eqn:E; [lia | done].
Qed.

Lemma Forall_not_elem (P : codepoint -> Prop) (x : codepoint) s :
  Forall P s -> ¬ P x -> x ∉ s.
Proof. rewrite Forall_forall. intros H Hx Hin. by apply Hx, H. Qed.

(** ** Filename sanitizer *)

Section SanitizerFacts.

Variable unquote : str -> str.
Variable uni_alnum : codepoint -> bool.

#[local] Abbreviation keep := (keep_char uni_alnum).
#[local] Abbreviation clean := (clean_unicode unquote uni_alnum).
#[local] Abbreviation safe := (safe_filename_unicode unquote uni_alnum).

Lemma keep_char_cases c :
  keep c = true ->
  ascii_name_char c = true ∨ (is_ascii c = false ∧ uni_alnum c = true).
Proof.
  unfold keep_char, is_word.
  destruct (is_ascii c) eqn:Ha.
  - intros H. left. revert H. char_facts.
  - intros H. right. split; [done|]. revert Ha H.
    destruct (uni_alnum c); [done|]. char_facts.
Qed.

Lemma ascii_name_char_keep c : ascii_name_char c = true -> keep c = true.
Proof.
  intros H. unfold keep_char, is_word.
  rewrite (ascii_name_char_ascii c H). revert H. char_facts.
Qed.

Lemma clean_unicode_keep name :
  Forall (fun c => keep c = true) (clean name).
Proof. apply filter_all. Qed.

Lemma safe_filename_unicode_keep name max_len :
  Forall (fun c => keep c = true) (safe name max_len).
Proof.
  assert (Hlit : forall s, Forall (fun c => ascii_name_char c = true) s ->
            Forall (fun c => keep c = true) s).
  { intros s Hs. eapply Forall_impl; [exact Hs|]. apply ascii_name_char_keep. }
  unfold safe_filename_unicode. destruct name as [|c name].
  - apply Hlit. by repeat constructor.
  - pose proof (truncate_keeps _ max_len _ (clean_unicode_keep (c :: name))) as H.
    destruct (truncate max_len (clean (c :: name))); [|done].
    apply Hlit. by repeat constructor.
Qed.

Lemma safe_filename_unicode_nonempty name max_len :
  safe name max_len ≠ [].
Proof.
  unfold safe_filename_unicode. destruct name as [|c name]; [done|].
  by destruct (truncate max_len (clean (c :: name))).
Qed.

Lemma safe_filename_unicode_length name max_len :
  (7 <= max_len)%Z ->
  (length (safe name max_len) <= Z.to_nat max_len)%nat.
Proof.
  intros Hn. unfold safe_filename_unicode.
  destruct name as [|c name]; [simpl; lia|].
  pose proof (truncate_length max_len (clean (c :: name))) as H.
  destruct (truncate max_len (clean (c :: name))); simpl in *; lia.
Qed.

Lemma clean_ascii_name_chars name :
  Forall (fun c => ascii_name_char c = true) (clean_ascii name).
Proof. apply strip_keeps, filter_all. Qed.

Lemma ascii_fallback_name_chars name max_len :
  Forall (fun c => ascii_name_char c = true) (ascii_fallback_name name max_len).
Proof.
  unfold ascii_fallback_name. apply truncate_keeps.
  pose proof (clean_ascii_name_chars name) as H.
  destruct (clean_ascii name); [by repeat constructor | done].
Qed.

Lemma ascii_fallback_name_nonempty name max_len :
  (1 <= max_len)%Z -> ascii_fallback_name name max_len ≠ [].
Proof.
  intros Hn. unfold ascii_fallback_name. apply truncate_nonempty; [done|].
  by destruct (clean_ascii name).
Qed.

(** The Unicode database puts no control character among the
    alphanumeric ones. *)
Hypothesis alnum_not_control :
  forall c, is_ascii c = false -> uni_alnum c = true -> is_control c = false.

Lemma keep_char_safe c :
  keep c = true ->
  is_control c = false ∧ c ≠ SLASH ∧ c ≠ BACKSLASH.
Proof.
  intros [H | [Ha Hu]]%keep_char_cases.
  - split; [by apply ascii_name_char_not_control|].
    by destruct (ascii_name_char_plain c H) as (? & ? & ?).
  - split; [by apply alnum_not_control|]. revert Ha. char_facts.
Qed.

(** C3: both sanitizers are total functions whose result is non-empty,
    has no path separator and no control character, and is no longer
    than the cap (120 and 80); the empty string is sent to "unnamed" by
    [safe_filename_unicode], and a name that cleaning empties is sent to
    "file". *)
Theorem sanitizers_produce_safe_names (name : str) :
  let u := safe name MAX_LEN_UNICODE in
  let a := ascii_fallback_name name MAX_LEN_ASCII in
  (u ≠ [] ∧ (SLASH ∉ u) ∧ (BACKSLASH ∉ u)
     ∧ Forall (fun c => is_control c = false) u ∧ (length u <= 120)%nat)
  ∧ (a ≠ [] ∧ (SLASH ∉ a) ∧ (BACKSLASH ∉ a)
     ∧ Forall (fun c => is_control c = false) a ∧ (length a <= 80)%nat)
  ∧ safe [] MAX_LEN_UNICODE = py "unnamed"
  ∧ (name ≠ [] -> clean name = [] -> u = py "file")
  ∧ (clean_ascii name = [] -> a = py "file").
Proof.
  intros u a.
  assert (Hu : Forall (fun c => is_control c = false ∧ c ≠ SLASH ∧ c ≠ BACKSLASH) u).
  { eapply Forall_impl; [apply safe_filename_unicode_keep|].
    intros c Hc; by apply keep_char_safe. }
  assert (Ha : Forall (fun c => is_control c = false ∧ c ≠ SLASH ∧ c ≠ BACKSLASH) a).
  { eapply Forall_impl; [apply ascii_fallback_name_chars|].
    intros c Hc; simpl. split; [by apply ascii_name_char_not_control|].
    by destruct (ascii_name_char_plain c Hc) as (? & ? & ?). }
  repeat split.
  - apply safe_filename_unicode_nonempty.
  - eapply Forall_not_elem; [exact Hu|]. intros (_ & ? & _); done.
  - eapply Forall_not_elem; [exact Hu|]. intros (_ & _ & ?); done.
  - eapply Forall_impl; [exact Hu|]. by intros c (? & _).
  - apply (safe_filename_unicode_length name MAX_LEN_UNICODE). unfold MAX_LEN_UNICODE; lia.
  - apply ascii_fallback_name_nonempty. unfold MAX_LEN_ASCII; lia.
  - eapply Forall_not_elem; [exact Ha|]. intros (_ & ? & _); done.
  - eapply Forall_not_elem; [exact Ha|]. intros (_ & _ & ?); done.
  - eapply Forall_impl; [exact Ha|]. by intros c (? & _).
  - apply (truncate_length MAX_LEN_ASCII). unfold MAX_LEN_ASCII; lia.
  - intros Hne Hc. subst u. unfold safe_filename_unicode.
    destruct name as [|c name]; [done|]. by rewrite Hc.
  - intros Hc. subst a. unfold ascii_fallback_name. by rewrite Hc.
Qed.

End SanitizerFacts.

Section SanitizerIdempotence.

Variable unquote : str -> str.
Variable uni_alnum : codepoint -> bool.

#[local] Abbreviation keep' := (keep_char uni_alnum).
#[local] Abbreviation clean' := (clean_unicode unquote uni_alnum).
#[local] Abbreviation safe' := (safe_filename_unicode unquote uni_alnum).

(** [unquote] returns a string without a percent sign as it is (the
    first test of the library function). *)
Hypothesis unquote_plain : forall s, PERCENT ∉ s -> unquote s = s.

(** Whitespace-only text is cleaned to the empty string. *)
Lemma clean_unicode_spaces name :
  Forall (fun c => is_space c = true) name -> clean' name = [].
Proof.
  intros H. unfold clean_unicode.
  rewrite unquote_plain.
  - by rewrite (strip_spaces name H).
  - eapply Forall_not_elem; [exact H|]. simpl. by vm_compute.
Qed.

(** C10: a non-empty input made of whitespace only is sent to "file" and
    not to "unnamed"; a non-empty input never takes the "unnamed"
    branch, its result is the cleaned and truncated text or "file". *)
Theorem whitespace_only_gives_file (name : str) (max_len : Z) :
  name ≠ [] ->
  safe' name max_len =
    match truncate max_len (clean' name) with
    | [] => py "file"
    | cleaned => cleaned
    end
  ∧ (Forall (fun c => is_space c = true) name ->
     safe' name max_len = py "file" ∧ safe' name max_len ≠ py "unnamed").
Proof.
  intros Hne. destruct name as [|c name]; [done|]. split.
  { unfold safe_filename_unicode.
    by destruct (truncate max_len (clean' (c :: name))). }
  intros Hsp. unfold safe_filename_unicode.
  rewrite (clean_unicode_spaces _ Hsp).
  assert (truncate max_len [] = []) as Ht.
  { unfold truncate, slice_to. destruct (longer_than [] max_len); [|done].
    destruct (0 <=? max_len)%Z; apply take_nil. }
  rewrite Ht. split; [reflexivity | by vm_compute].
Qed.

(** The Unicode database puts no whitespace character among the
    alphanumeric ones. *)
Hypothesis alnum_not_space :
  forall c, is_ascii c = false -> uni_alnum c = true -> is_space c = false.

Lemma keep_char_plain c :
  keep' c = true ->
  is_space c = false ∧ c ≠ SLASH ∧ c ≠ BACKSLASH ∧ c ≠ PERCENT.
Proof.
  intros [H | [Ha Hu]]%keep_char_cases.
  - split; [by apply ascii_name_char_not_space|].
    by apply ascii_name_char_plain.
  - split; [by apply alnum_not_space|]. revert Ha. char_facts.
Qed.

(** A name made of kept characters is left as it is by the cleaning. *)
Lemma clean_unicode_fixpoint s :
  Forall (fun c => keep' c = true) s -> clean' s = s.
Proof.
  intros H.
  assert (Hp : Forall (fun c => is_space c = false ∧ c ≠ SLASH
                                ∧ c ≠ BACKSLASH ∧ c ≠ PERCENT) s).
  { eapply Forall_impl; [exact H|]. apply keep_char_plain. }
  assert (Hs : Forall (fun c => is_space c = false) s).
  { eapply Forall_impl; [exact Hp|]. by intros c (? & _). }
  unfold clean_unicode.
  rewrite unquote_plain
    by (eapply Forall_not_elem; [exact Hp|]; by intros (_ & _ & _ & ?)).
  rewrite (strip_same s Hs).
  rewrite (replace_char_same SLASH)
    by (eapply Forall_not_elem; [exact Hp|]; by intros (_ & ? & _)).
  rewrite (replace_char_same BACKSLASH)
    by (eapply Forall_not_elem; [exact Hp|]; by intros (_ & _ & ? & _)).
  unfold sub_spaces. rewrite (sub_spaces_from_same false s Hs).
  by apply filter_same.
Qed.

Lemma safe_filename_unicode_fixpoint s max_len :
  s ≠ [] -> Forall (fun c => keep' c = true) s ->
  (Z.of_nat (length s) <= max_len)%Z ->
  safe' s max_len = s.
Proof.
  intros Hne Hk Hlen. unfold safe_filename_unicode.
  destruct s as [|c s]; [done|].
  rewrite (clean_unicode_fixpoint _ Hk), (truncate_same _ _ Hlen). done.
Qed.

(** C9: sanitizing a sanitized name returns it unchanged, and the result
    is a function of the input text alone. *)
Theorem safe_filename_unicode_idempotent (x : str) :
  safe' (safe' x MAX_LEN_UNICODE) MAX_LEN_UNICODE = safe' x MAX_LEN_UNICODE
  ∧ (forall y, x = y -> safe' x MAX_LEN_UNICODE = safe' y MAX_LEN_UNICODE).
Proof.
  split; [|by intros y ->].
  apply safe_filename_unicode_fixpoint.
  - apply safe_filename_unicode_nonempty.
  - apply safe_filename_unicode_keep.
  - pose proof (safe_filename_unicode_length unquote uni_alnum x MAX_LEN_UNICODE).
    unfold MAX_LEN_UNICODE in *. lia.
Qed.

End SanitizerIdempotence.

(** ** Extension resolver *)

(** Every extension of the table begins with a dot. *)
Lemma content_type_ext_dotted k e :
  dict_get CONTENT_TYPE_EXT k = Some e -> exists t, e = DOT :: t.
Proof.
  unfold CONTENT_TYPE_EXT. simpl.
  repeat (case_decide; [intros [= <-]; eexists; reflexivity|]). done.
Qed.

Lemma rfind_from_spec c s : forall i acc,
  rfind_from i acc c s = acc
  ∨ ((i <= rfind_from i acc c s)%Z
     ∧ s !! Z.to_nat (rfind_from i acc c s - i) = Some c).
Proof.
  induction s as [|x s IH]; intros i acc; simpl; [by left|].
  destruct (IH (i + 1)%Z (if x =? c then i else acc)) as [H | [Hle Hat]].
  - rewrite H. destruct (N.eqb_spec x c) as [->|]; [|by left].
    right. split; [lia|]. by rewrite Z.sub_diag.
  - right. split; [lia|].
    replace (Z.to_nat (rfind_from (i + 1) (if x =? c then i else acc) c s - i))
      with (S (Z.to_nat (rfind_from (i + 1) (if x =? c then i else acc) c s - (i + 1))))
      by lia.
    done.
Qed.

(** The extension [splitext] returns is empty or begins with a dot. *)
Lemma splitext_ext_dotted p :
  splitext_ext p = [] ∨ exists t, splitext_ext p = DOT :: t.
Proof.
  unfold splitext_ext.
  destruct (Z.ltb_spec (rfind SLASH p) (rfind DOT p)) as [Hlt|]; [|by left].
  destruct (existsb _ _); [|by left]. right.
  assert (Hsep : (-1 <= rfind SLASH p)%Z).
  { unfold rfind. destruct (rfind_from_spec SLASH p 0 (-1)) as [-> | [? _]]; lia. }
  unfold rfind in *.
  destruct (rfind_from_spec DOT p 0 (-1)) as [Heq | [_ Hat]]; [lia|].
  rewrite Z.sub_0_r in Hat.
  exists (drop (S (Z.to_nat (rfind_from 0 (-1) DOT p))) p).
  by apply drop_S.
Qed.

(** *** What the normalisation of the header and the extension of a
    path are *)

Lemma split_head_app c pre rest :
  c ∉ pre -> (rest = [] ∨ exists post, rest = c :: post) ->
  split_head c (pre ++ rest) = pre.
Proof.
  intros Hpre Hrest. induction pre as [|x pre IH]; simpl.
  - destruct Hrest as [-> | [post ->]]; [done|]. simpl. by rewrite N.eqb_refl.
  - apply not_elem_of_cons in Hpre as [Hx Hpre].
    destruct (N.eqb_spec x c); [congruence|]. by rewrite IH.
Qed.

Lemma split_head_decompose c s :
  exists rest, s = split_head c s ++ rest
    ∧ (rest = [] ∨ exists post, rest = c :: post) ∧ (c ∉ split_head c s).
Proof.
  induction s as [|x s (rest & Hs & Hrest & Hno)]; simpl.
  - exists []. split; [done|]. split; [by left | apply not_elem_of_nil].
  - destruct (N.eqb_spec x c) as [->|Hx].
    + exists (c :: s). split; [done|]. split; [right; by eexists | apply not_elem_of_nil].
    + exists rest. split; [simpl; by rewrite <- Hs|]. split; [done|].
      apply not_elem_of_cons. split; [congruence | done].
Qed.

Lemma lstrip_app_spaces ws s :
  Forall (fun c => is_space c = true) ws -> lstrip (ws ++ s) = lstrip s.
Proof. induction 1 as [|c ws Hc _ IH]; simpl; [done|]. by rewrite Hc. Qed.

Lemma lstrip_decompose s :
  exists ws, s = ws ++ lstrip s ∧ Forall (fun c => is_space c = true) ws
    ∧ (lstrip s = [] ∨ exists a t, lstrip s = a :: t ∧ is_space a = false).
Proof.
  induction s as [|c s (ws & Hs & Hws & Hhead)]; simpl.
  - exists []. split; [done|]. split; [constructor | by left].
  - destruct (is_space c) eqn:Hc.
    + exists (c :: ws). split; [simpl; by rewrite <- Hs|]. split; [by constructor | done].
    + exists []. split; [done|]. split; [constructor|]. right. by exists c, s.
Qed.

Lemma rstrip_decompose s :
  exists ws, s = rstrip s ++ ws ∧ Forall (fun c => is_space c = true) ws
    ∧ (rstrip s = [] ∨ exists t z, rstrip s = t ++ [z] ∧ is_space z = false).
Proof.
  unfold rstrip. destruct (lstrip_decompose (rev s)) as (ws & Hs & Hws & Hhead).
  exists (rev ws). split; [|split; [by apply Forall_rev|]].
  - rewrite <- rev_app_distr, <- Hs. by rewrite rev_involutive.
  - destruct Hhead as [-> | (a & t & -> & Ha)]; [by left|].
    right. exists (rev t), a. by simpl.
Qed.

(** Trimming removes the whitespace around a text that neither begins
    nor ends with whitespace, and nothing else. *)
Lemma strip_spec ws1 core ws2 :
  Forall (fun c => is_space c = true) ws1 ->
  Forall (fun c => is_space c = true) ws2 ->
  trimmed core -> strip (ws1 ++ core ++ ws2) = core.
Proof.
  intros H1 H2 Ht. unfold strip. rewrite (lstrip_app_spaces ws1 _ H1).
  destruct Ht as [-> | [(a & t & -> & Ha) (t' & z & Hz & Hzs)]].
  - simpl. by rewrite (lstrip_spaces ws2 H2).
  - simpl. rewrite Ha. unfold rstrip.
    change (a :: t ++ ws2) with ((a :: t) ++ ws2).
    rewrite rev_app_distr, (lstrip_app_spaces (rev ws2)) by (by apply Forall_rev).
    rewrite Hz, rev_app_distr. simpl. rewrite Hzs. simpl.
    by rewrite rev_involutive.
Qed.

(** Every text is whitespace, a trimmed text and whitespace again. *)
Lemma strip_decompose s :
  exists ws1 ws2, s = ws1 ++ strip s ++ ws2
    ∧ Forall (fun c => is_space c = true) ws1
    ∧ Forall (fun c => is_space c = true) ws2
    ∧ trimmed (strip s).
Proof.
  destruct (lstrip_decompose s) as (ws1 & Hs & H1 & Hhead).
  destruct (rstrip_decompose (lstrip s)) as (ws2 & Hl & H2 & Hlast).
  exists ws1, ws2. unfold strip. split; [by rewrite <- Hl|]. split; [done|].
  split; [done|].
  destruct Hlast as [Hnil | Hlast]; [by left|]. right. split; [|done].
  destruct Hhead as [Hn | (a & t & Ha & Hsp)].
  { rewrite Hn in *. destruct Hlast as (t' & z & Hz & _).
    unfold rstrip in Hz. simpl in Hz. by destruct t'. }
  destruct (rstrip (lstrip s)) as [|b r] eqn:Hr.
  { destruct Hlast as (t' & z & Hz & _). by destruct t'. }
  rewrite Ha in Hl. simpl in Hl. injection Hl as <- _. by exists a, r.
Qed.

(** Every header has a media type, the one the code computes. *)
Lemma main_type_of_total h :
  main_type_of h (strip (split_head SEMICOLON h)).
Proof.
  destruct (split_head_decompose SEMICOLON h) as (rest & Hh & Hrest & Hno).
  destruct (strip_decompose (split_head SEMICOLON h)) as (ws1 & ws2 & Hs & H1 & H2 & Ht).
  exists ws1, ws2, rest. split; [|split; [done|split; [done|split; [done|split; [|done]]]]].
  - rewrite Hh at 1. rewrite Hs at 1. by rewrite <- !app_assoc.
  - intros Hin. apply Hno. rewrite Hs, !elem_of_app. tauto.
Qed.

Lemma rfind_from_app c a b : forall i acc,
  rfind_from i acc c (a ++ b)
  = rfind_from (i + Z.of_nat (length a)) (rfind_from i acc c a) c b.
Proof.
  induction a as [|x a IH]; intros i acc; simpl.
  - by rewrite Z.add_0_r.
  - rewrite IH. f_equal. lia.
Qed.

Lemma rfind_from_absent c b : forall i acc,
  c ∉ b -> rfind_from i acc c b = acc.
Proof.
  induction b as [|x b IH]; intros i acc Hb; simpl; [done|].
  apply not_elem_of_cons in Hb as [Hx Hb].
  destruct (N.eqb_spec x c); [congruence|]. by apply IH.
Qed.

(** [rfind] gives the position of the last occurrence. *)
Lemma rfind_last c a b :
  c ∉ b -> rfind c (a ++ c :: b) = Z.of_nat (length a).
Proof.
  intros Hb. unfold rfind. rewrite rfind_from_app. simpl.
  rewrite N.eqb_refl. by rewrite rfind_from_absent.
Qed.

Lemma rfind_bounds c a : (-1 <= rfind c a < Z.of_nat (length a))%Z.
Proof.
  unfold rfind. destruct (rfind_from_spec c a 0 (-1)) as [-> | [Hle Hat]]; [lia|].
  rewrite Z.sub_0_r in Hat. apply lookup_lt_Some in Hat. lia.
Qed.

Lemma rfind_app_absent c a b : c ∉ b -> rfind c (a ++ b) = rfind c a.
Proof. intros Hb. unfold rfind. rewrite rfind_from_app. by apply rfind_from_absent. Qed.

(** [splitext] returns the extension of the path. *)
Lemma splitext_ext_spec p e : extension_of_path p e -> splitext_ext p = e.
Proof.
  intros (dir & name & -> & Hname & Hdir & Hcases).
  assert (Hsep : (rfind SLASH (dir ++ name) + 1 = Z.of_nat (length dir))%Z).
  { destruct Hdir as [-> | [d ->]]; simpl.
    - unfold rfind. by rewrite rfind_from_absent.
    - rewrite <- app_assoc. simpl. rewrite rfind_last by done.
      rewrite length_app. simpl. lia. }
  unfold splitext_ext.
  destruct Hcases as [[Hno ->] | (stem & t & -> & Ht & Hstem)].
  - rewrite (rfind_app_absent DOT dir name Hno).
    pose proof (rfind_bounds DOT dir).
    destruct (Z.ltb_spec (rfind SLASH (dir ++ name)) (rfind DOT dir)); [lia | done].
  - assert (Hdot : rfind DOT (dir ++ stem ++ DOT :: t)
                   = Z.of_nat (length dir + length stem)).
    { rewrite app_assoc, rfind_last by done. by rewrite length_app. }
    rewrite Hdot.
    destruct (Z.ltb_spec (rfind SLASH (dir ++ stem ++ DOT :: t))
                (Z.of_nat (length dir + length stem))); [|lia].
    replace (Z.to_nat (rfind SLASH (dir ++ stem ++ DOT :: t) + 1))
      with (length dir) by lia.
    rewrite Nat2Z.id.
    rewrite (app_assoc dir stem), <- length_app, take_app_length.
    rewrite drop_app_length, drop_app_length.
    destruct Hstem as [[(c & Hc & Hne) ->] | [Hall ->]].
    + assert (existsb (fun c0 : N => negb (c0 =? DOT)) stem = true) as ->; [|done].
      apply existsb_exists. exists c. split; [by apply list_elem_of_In|].
      by destruct (N.eqb_spec c DOT).
    + assert (existsb (fun c0 : N => negb (c0 =? DOT)) stem = false) as ->; [|done].
      clear -Hall. by induction Hall as [|c stem -> _ IH].
Qed.

(** Cutting a text after the last occurrence of a character. *)
Lemma split_at_last c (s : str) :
  exists a b, s = a ++ b ∧ (c ∉ b) ∧ (a = [] ∨ exists d, a = d ++ [c]).
Proof.
  induction s as [|x s (a & b & -> & Hb & Ha)] using rev_ind.
  - exists [], []. split; [done|]. split; [apply not_elem_of_nil | by left].
  - destruct (decide (x = c)) as [->|Hx].
    + exists ((a ++ b) ++ [c]), []. split; [by rewrite app_nil_r|].
      split; [apply not_elem_of_nil | right; by eexists].
    + exists a, (b ++ [x]). split; [by rewrite app_assoc|]. split; [|done].
      rewrite elem_of_app, list_elem_of_singleton. intros [? | ?]; [done | congruence].
Qed.

(** Every path has an extension, the one [splitext] returns. *)
Lemma extension_of_path_total p : extension_of_path p (splitext_ext p).
Proof.
  assert (H : exists e, extension_of_path p e).
  { destruct (split_at_last SLASH p) as (dir & name & -> & Hname & Hdir).
    destruct (split_at_last DOT name) as (a & t & -> & Ht & Ha).
    destruct Ha as [-> | [stem ->]].
    - exists [], dir, t. split; [done|]. split; [done|]. split; [done|]. by left.
    - destruct (decide (Forall (fun c => c = DOT) stem)) as [Hall | Hsome].
      + exists [], dir, ((stem ++ [DOT]) ++ t). split; [done|]. split; [done|].
        split; [done|]. right. exists stem, t. split; [by rewrite <- app_assoc|].
        split; [done|]. by right.
      + exists (DOT :: t), dir, ((stem ++ [DOT]) ++ t). split; [done|].
        split; [done|]. split; [done|]. right. exists stem, t.
        split; [by rewrite <- app_assoc|]. split; [done|]. left. split; [|done].
        apply not_Forall_Exists in Hsome; [|apply _].
        apply Exists_exists in Hsome as (c & Hc & Hne). by exists c. }
  destruct H as [e He]. by rewrite (splitext_ext_spec p e He).
Qed.

(** The test [ext and len(ext) <= 5]. *)
Lemma usable_ext_true (ext : str) :
  ext ≠ [] -> (length ext <= 5)%nat ->
  negb (bool_decide (ext = [])) && (length ext <=? 5)%nat = true.
Proof.
  intros Hne Hlen. rewrite bool_decide_eq_false_2 by done.
  by apply Nat.leb_le in Hlen as ->.
Qed.

Lemma usable_ext_false (ext : str) :
  ext = [] ∨ (5 < length ext)%nat ->
  negb (bool_decide (ext = [])) && (length ext <=? 5)%nat = false.
Proof.
  intros [-> | Hlen]; [done|].
  apply Nat.leb_gt in Hlen as ->. apply andb_false_r.
Qed.

Section ResolverFacts.

Variable urlparse : str -> option parsed_url.
Variable lower : str -> str.
Variable guess_type : str -> option str.

(** [str.lower] keeps the empty string empty and a leading dot in
    place. *)
Hypothesis lower_empty : lower [] = [].
Hypothesis lower_dot : forall s, exists t, lower (DOT :: s) = DOT :: t.

Lemma ext_from_url_dotted url :
  ext_from_url urlparse lower url = []
  ∨ exists t, ext_from_url urlparse lower url = DOT :: t.
Proof.
  unfold ext_from_url. destruct (urlparse url) as [p|]; [|by left].
  destruct (splitext_ext_dotted (url_path p)) as [-> | [t ->]].
  - by left.
  - right. apply lower_dot.
Qed.

Lemma normalize_content_type_spec h core :
  main_type_of h core -> normalize_content_type lower (Some h) = lower core.
Proof.
  intros (ws1 & ws2 & rest & -> & H1 & H2 & Hrest & Hsemi & Htrim).
  unfold normalize_content_type. simpl. f_equal.
  replace (ws1 ++ core ++ ws2 ++ rest) with ((ws1 ++ core ++ ws2) ++ rest)
    by (by rewrite <- !app_assoc).
  rewrite split_head_app; [by apply strip_spec| |done].
  rewrite !elem_of_app. intros [Hin | [Hin | Hin]]; [|done|].
  - apply (proj1 (Forall_forall _ _) H1) in Hin. by vm_compute in Hin.
  - apply (proj1 (Forall_forall _ _) H2) in Hin. by vm_compute in Hin.
Qed.

Lemma ext_from_url_spec url p e :
  urlparse url = Some p -> extension_of_path (url_path p) e ->
  ext_from_url urlparse lower url = lower e.
Proof.
  intros Hp He. unfold ext_from_url. rewrite Hp. f_equal.
  by apply splitext_ext_spec.
Qed.

(** C5, as amended: the extension is chosen by precedence -- the table
    entry of the media type of the Content-Type header (what stands
    before the first semicolon, trimmed, then lowercased), else the
    lowercased extension of the URL path when it is not empty and at most
    5 characters long with its dot, else the table entry of the guessed
    MIME type, else ".png" -- and it is never empty and always begins
    with a dot. *)
Theorem choose_extension_precedence (header : option str) (url : str) :
  let ct := normalize_content_type lower header in
  let ext := ext_from_url urlparse lower url in
  let r := choose_extension urlparse lower guess_type header url in
  (header = None -> ct = [])
  ∧ (forall h core, header = Some h -> main_type_of h core -> ct = lower core)
  ∧ (urlparse url = None -> ext = [])
  ∧ (forall p e, urlparse url = Some p ->
       extension_of_path (url_path p) e -> ext = lower e)
  ∧ Forall (fun kv : string * string =>
              dict_get CONTENT_TYPE_EXT (py kv.1) = Some (py kv.2))
      [ ("image/png", ".png"); ("image/x-icon", ".ico");
        ("image/vnd.microsoft.icon", ".ico"); ("image/jpeg", ".jpg");
        ("image/jpg", ".jpg"); ("image/svg+xml", ".svg");
        ("image/webp", ".webp"); ("image/gif", ".gif") ]%string
  ∧ (forall e, dict_get CONTENT_TYPE_EXT ct = Some e -> r = e)
  ∧ (dict_get CONTENT_TYPE_EXT ct = None ->
     ext ≠ [] -> (length ext <= 5)%nat -> r = ext)
  ∧ (dict_get CONTENT_TYPE_EXT ct = None ->
     ext = [] ∨ (5 < length ext)%nat ->
     forall g e, guess_type url = Some g ->
       dict_get CONTENT_TYPE_EXT g = Some e -> r = e)
  ∧ (dict_get CONTENT_TYPE_EXT ct = None ->
     ext = [] ∨ (5 < length ext)%nat ->
     guess_type url = None
     ∨ (exists g, guess_type url = Some g ∧ dict_get CONTENT_TYPE_EXT g = None) ->
     r = py ".png")
  ∧ (r ≠ [] ∧ exists t, r = DOT :: t).
Proof.
  intros ct ext r.
  assert (Hdot : exists t, r = DOT :: t).
  { subst r. unfold choose_extension. fold ct. fold ext.
    destruct (dict_get CONTENT_TYPE_EXT ct) as [e|] eqn:Hct.
    { by eapply content_type_ext_dotted. }
    destruct (negb (bool_decide (ext = [])) && (length ext <=? 5)%nat) eqn:Hext.
    { destruct (ext_from_url_dotted url) as [He | He]; [|exact He].
      fold ext in He. rewrite He in Hext. done. }
    destruct (guess_type url) as [[|c g]|]; try (eexists; reflexivity).
    destruct (dict_get CONTENT_TYPE_EXT (c :: g)) as [e|] eqn:Hg.
    - by eapply content_type_ext_dotted.
    - eexists; reflexivity. }
  split; [intros ->; subst ct; unfold normalize_content_type; simpl; apply lower_empty|].
  split; [intros h core -> Hc; by apply normalize_content_type_spec|].
  split; [intros Hp; subst ext; unfold ext_from_url; by rewrite Hp|].
  split; [intros p e Hp He; by eapply ext_from_url_spec|].
  split; [repeat constructor|].
  split; [|split; [|split; [|split]]].
  - intros e He. subst r. unfold choose_extension. fold ct. by rewrite He.
  - intros Hct Hne Hlen. subst r. unfold choose_extension. fold ct. fold ext.
    by rewrite Hct, usable_ext_true.
  - intros Hct Hext g e Hg He. subst r. unfold choose_extension.
    fold ct. fold ext. rewrite Hct, (usable_ext_false _ Hext), Hg.
    destruct g; [by vm_compute in He | by rewrite He].
  - intros Hct Hext Hg. subst r. unfold choose_extension.
    fold ct. fold ext. rewrite Hct, (usable_ext_false _ Hext).
    destruct Hg as [-> | (g & -> & Hg)]; [done|].
    destruct g; [done | by rewrite Hg].
  - split; [|exact Hdot]. destruct Hdot as [t ->]. done.
Qed.

End ResolverFacts.

(** ** Collision-safe writer *)

Lemma py_inj s t : py s = py t -> s = t.
Proof.
  unfold py. intros H.
  rewrite <- (string_of_list_ascii_of_string s), <- (string_of_list_ascii_of_string t).
  f_equal. revert H.
  generalize (list_ascii_of_string s) (list_ascii_of_string t).
  induction l as [|a l IH]; intros [|b l']; simpl; try done.
  intros [= Hab Hl]. f_equal; [|by apply IH].
  by rewrite <- (ascii_N_embedding a), <- (ascii_N_embedding b), Hab.
Qed.

Lemma dec_inj n m : dec n = dec m -> n = m.
Proof.
  unfold dec. intros H%py_inj.
  assert (Some (Nat.to_uint n) = Some (Nat.to_uint m)) as [= Hu].
  { by rewrite <- !NilEmpty.usu, H. }
  by rewrite <- (Unsigned.of_to n), <- (Unsigned.of_to m), Hu.
Qed.

Lemma candidate_succ base ext k :
  candidate base ext (S k) = base ++ UNDERSCORE :: dec (S k) ++ ext.
Proof. done. Qed.

Lemma candidate_inj base ext j k :
  candidate base ext j = candidate base ext k -> j = k.
Proof.
  destruct j as [|j], k as [|k]; simpl; [done| | |].
  - intros H%app_inv_head. apply (f_equal length) in H.
    simpl in H. rewrite length_app in H. lia.
  - intros H%app_inv_head. apply (f_equal length) in H.
    simpl in H. rewrite length_app in H. lia.
  - intros H%app_inv_head. injection H as H.
    apply app_inv_tail in H. by apply dec_inj.
Qed.

Lemma joinpath_inj outdir f g : joinpath outdir f = joinpath outdir g -> f = g.
Proof. unfold joinpath. by intros [= H]%app_inv_head. Qed.

Lemma path_exists_true (fs : gmap str (list Byte.byte)) p :
  path_exists fs p = true <-> is_Some (fs !! p).
Proof. unfold path_exists. apply bool_decide_eq_true. Qed.

Lemma path_exists_false (fs : gmap str (list Byte.byte)) p :
  path_exists fs p = false <-> fs !! p = None.
Proof.
  unfold path_exists. rewrite bool_decide_eq_false. symmetry. apply eq_None_not_Some.
Qed.

Section FreeName.

Variable fs : gmap str (list Byte.byte).
Variables outdir base ext : str.

#[local] Abbreviation path_of k := (joinpath outdir (candidate base ext k)).

(** The loop, entered at candidate [k] after every earlier candidate was
    found to exist, leaves at the first candidate that does not exist. *)
Lemma free_name_loop_ret fuel : forall k f,
  (forall j, (j < k)%nat -> is_Some (fs !! path_of j)) ->
  free_name_loop fuel fs outdir base ext (candidate base ext k) (S k) = Ret f ->
  exists k', (k <= k')%nat ∧ f = candidate base ext k'
    ∧ fs !! path_of k' = None
    ∧ (forall j, (j < k')%nat -> is_Some (fs !! path_of j)).
Proof.
  induction fuel as [|fuel IH]; intros k f Hbelow; simpl; [done|].
  destruct (path_exists fs (path_of k)) eqn:Hk.
  - rewrite <- candidate_succ. intros H.
    destruct (IH (S k) f) as (k' & Hle & ? & ? & ?); [|done|].
    + intros j Hj. destruct (decide (j = k)) as [->|]; [|apply Hbelow; lia].
      by apply path_exists_true.
    + exists k'. split; [lia | done].
  - intros [= <-]. exists k. split; [lia|]. split; [done|].
    split; [by apply path_exists_false | done].
Qed.

Lemma free_name_loop_no_exc fuel : forall k e,
  free_name_loop fuel fs outdir base ext (candidate base ext k) (S k) ≠ Exc e.
Proof.
  induction fuel as [|fuel IH]; intros k e; simpl; [done|].
  destruct (path_exists fs (path_of k)); [|done].
  rewrite <- candidate_succ. apply IH.
Qed.

(** When the bound is reached, every candidate tested exists. *)
Lemma free_name_loop_out_of_fuel fuel : forall k,
  free_name_loop fuel fs outdir base ext (candidate base ext k) (S k) = Loop ->
  forall j, (k <= j < k + fuel)%nat -> is_Some (fs !! path_of j).
Proof.
  induction fuel as [|fuel IH]; intros k; simpl; [intros _ j; lia|].
  destruct (path_exists fs (path_of k)) eqn:Hk; [|done].
  rewrite <- candidate_succ. intros H j Hj.
  destruct (decide (j = k)) as [->|]; [by apply path_exists_true|].
  apply (IH (S k) H). lia.
Qed.

(** No more candidates exist than there are files. *)
Lemma candidates_bounded n :
  (forall j, (j < n)%nat -> is_Some (fs !! path_of j)) -> (n <= size fs)%nat.
Proof.
  intros Hall.
  pose (l := (fun j => path_of j) <$> seq 0 n).
  assert (Hnd : NoDup l).
  { apply NoDup_fmap_2_strong; [|apply NoDup_seq].
    intros j k _ _ H. by apply joinpath_inj, candidate_inj in H. }
  assert (Hin : forall p, p ∈ l -> p ∈ (map_to_list fs).*1).
  { intros p (j & -> & Hj)%list_elem_of_fmap.
    apply elem_of_seq in Hj. destruct (Hall j) as [v Hv]; [lia|].
    apply list_elem_of_fmap. exists (path_of j, v). split; [done|].
    by apply elem_of_map_to_list. }
  pose proof (submseteq_length _ _ (NoDup_submseteq _ _ Hnd Hin)) as Hlen.
  unfold l in Hlen.
  rewrite !length_fmap, length_seq, length_map_to_list in Hlen. done.
Qed.

(** The search for a free name always ends, at the first candidate that
    no file occupies. *)
Lemma free_name_first_free :
  exists k, free_name fs outdir base ext = Ret (candidate base ext k)
    ∧ fs !! path_of k = None
    ∧ (forall j, (j < k)%nat -> is_Some (fs !! path_of j)).
Proof.
  unfold free_name.
  change (base ++ ext) with (candidate base ext 0).
  destruct (free_name_loop (S (size fs)) fs outdir base ext
              (candidate base ext 0) 1) as [f|e|] eqn:H.
  - apply free_name_loop_ret in H as (k & _ & -> & ? & ?); [|intros j; lia].
    by exists k.
  - by apply free_name_loop_no_exc in H.
  - pose proof (free_name_loop_out_of_fuel _ _ H) as Hall.
    assert (S (size fs) <= size fs)%nat; [|lia].
    apply candidates_bounded. intros j Hj. apply Hall. lia.
Qed.

End FreeName.

Lemma copy_stream_other path events : forall fs q,
  q ≠ path -> (copy_stream path events fs).2 !! q = fs !! q.
Proof.
  induction events as [|[b|e] events IH]; intros fs q Hq; simpl; [done| |done].
  rewrite IH by done. by rewrite lookup_insert_ne.
Qed.

Lemma copy_stream_keeps path events : forall fs,
  is_Some (fs !! path) -> is_Some ((copy_stream path events fs).2 !! path).
Proof.
  induction events as [|[b|e] events IH]; intros fs Hp; simpl; [done| |done].
  apply IH. rewrite lookup_insert_eq. by eexists.
Qed.

Section WriterFacts.

Variable open_error : str -> option exn.
Variable resolve : str -> str.

#[local] Abbreviation write_file' := (write_file open_error).
#[local] Abbreviation write_icon' := (write_icon open_error resolve).
#[local] Abbreviation write_fallback' := (write_fallback open_error resolve).

(** A write attempt touches no other path, and logs one [open]. *)
Lemma write_file_spec path events w r rest w' :
  write_file' path events w = (r, rest, w') ->
  (forall q, q ≠ path -> files w' !! q = files w !! q)
  ∧ (r = None -> is_Some (files w' !! path))
  ∧ opens w' = path :: opens w
  ∧ requests w' = requests w.
Proof.
  unfold write_file. destruct (open_error path) as [e|].
  - intros [= <- <- <-]. done.
  - simpl. destruct (copy_stream path events (<[path:=[]]> (files w)))
      as [[r0 rest0] fs0] eqn:Hc.
    intros [= <- <- <-]. simpl.
    replace fs0 with (copy_stream path events (<[path:=[]]> (files w))).2
      by (by rewrite Hc).
    split; [|split; [|done]].
    + intros q Hq. rewrite copy_stream_other by done. by rewrite lookup_insert_ne.
    + intros _. apply copy_stream_keeps. rewrite lookup_insert_eq. by eexists.
Qed.

(** A write attempt at a path that no file occupies leaves every
    existing file as it was. *)
Lemma write_file_fresh path events w r rest w' :
  files w !! path = None ->
  write_file' path events w = (r, rest, w') ->
  forall q, is_Some (files w !! q) -> files w' !! q = files w !! q.
Proof.
  intros Hfree (Hother & _)%write_file_spec q Hq. apply Hother.
  intros ->. rewrite Hfree in Hq. by destruct Hq.
Qed.

(** Whatever way a call of the writer ends, with or without the fallback,
    it changes no file that existed before it. *)
Lemma write_icon_keeps_existing_files w outdir base ext events r w' :
  write_icon' w outdir base ext events = (r, w') ->
  forall q, is_Some (files w !! q) -> files w' !! q = files w !! q.
Proof.
  unfold write_icon.
  destruct (free_name_first_free (files w) outdir base ext) as (k & -> & Hnone & _).
  destruct (write_file' _ events w) as [[r1 rest] w1] eqn:Hw1.
  pose proof (write_file_fresh _ _ _ _ _ _ Hnone Hw1) as Hkeep1.
  destruct r1 as [[m|m]|]; [|by intros [= <- <-]..].
  unfold write_fallback.
  destruct (free_name_first_free (files w1) outdir
              (ascii_fallback_name base MAX_LEN_ASCII) ext) as (k2 & -> & Hnone2 & _).
  destruct (write_file' _ rest w1) as [[r2 rest2] w2] eqn:Hw2.
  pose proof (write_file_fresh _ _ _ _ _ _ Hnone2 Hw2) as Hkeep2.
  intros Hr q Hq.
  assert (w' = w2) as -> by (by destruct r2; injection Hr).
  rewrite Hkeep2, Hkeep1; [done..|]. by rewrite Hkeep1.
Qed.

(** The fallback always returns: a success, or a failure that carries
    the message of the exception. *)
Lemma write_fallback_returns w outdir base ext events :
  exists ok info w', write_fallback' w outdir base ext events = (Ret (ok, info), w').
Proof.
  unfold write_fallback.
  destruct (free_name_first_free (files w) outdir
              (ascii_fallback_name base MAX_LEN_ASCII) ext) as (k & -> & _).
  destruct (write_file _ _ _ _) as [[[e|] rest] w2]; eauto.
Qed.

(** The writer never raises and never runs without end. *)
Lemma write_icon_returns w outdir base ext events :
  exists ok info w', write_icon' w outdir base ext events = (Ret (ok, info), w').
Proof.
  unfold write_icon.
  destruct (free_name_first_free (files w) outdir base ext) as (k & -> & _).
  destruct (write_file _ _ _ _) as [[[[m|m]|] rest] w1]; eauto.
  apply write_fallback_returns.
Qed.


End WriterFacts.

(** ** The writer when [exists()] raises *)

Section RaisingExistsFacts.

Variable exists_error : str -> option exn.
Variable open_error : str -> option exn.
Variable resolve : str -> str.

#[local] Abbreviation search := (free_name_raising exists_error).
#[local] Abbreviation writer := (write_icon_raising exists_error open_error resolve).

(** The loop, entered at candidate [k]: it returns the first candidate
    from [k] on that does not exist, or raises what [exists()] raises at
    the first candidate for which it raises, whichever comes first; when
    the bound is reached every candidate tested exists. *)
Lemma free_name_loop_raising_spec fs outdir base ext fuel : forall k,
  tested_below exists_error fs outdir base ext k ->
  match free_name_loop_raising exists_error fuel fs outdir base ext
          (candidate base ext k) (S k) with
  | Ret f =>
      exists k', (k <= k')%nat ∧ f = candidate base ext k'
        ∧ exists_error (joinpath outdir (candidate base ext k')) = None
        ∧ fs !! joinpath outdir (candidate base ext k') = None
        ∧ tested_below exists_error fs outdir base ext k'
  | Exc e =>
      exists k', (k <= k')%nat
        ∧ exists_error (joinpath outdir (candidate base ext k')) = Some e
        ∧ tested_below exists_error fs outdir base ext k'
  | Loop =>
      forall j, (k <= j < k + fuel)%nat ->
        is_Some (fs !! joinpath outdir (candidate base ext j))
  end.
Proof.
  induction fuel as [|fuel IH]; intros k Hbelow; simpl; [intros j; lia|].
  unfold exists_or_raise.
  destruct (exists_error (joinpath outdir (candidate base ext k))) as [e|] eqn:He.
  { exists k. split; [lia|]. done. }
  destruct (path_exists fs (joinpath outdir (candidate base ext k))) eqn:Hk.
  - rewrite <- candidate_succ.
    assert (Hbelow' : tested_below exists_error fs outdir base ext (S k)).
    { intros j Hj. destruct (decide (j = k)) as [->|]; [|apply Hbelow; lia].
      split; [done | by apply path_exists_true]. }
    specialize (IH (S k) Hbelow').
    destruct (free_name_loop_raising exists_error fuel fs outdir base ext
                (candidate base ext (S k)) (S (S k))) as [f|e|].
    + destruct IH as (k' & Hle & ? & ? & ? & ?). exists k'. split; [lia | done].
    + destruct IH as (k' & Hle & ? & ?). exists k'. split; [lia | done].
    + intros j Hj. destruct (decide (j = k)) as [->|]; [by apply path_exists_true|].
      apply IH. lia.
  - exists k. split; [lia|]. split; [done|]. split; [done|].
    split; [by apply path_exists_false | done].
Qed.

(** The search always ends: with the first candidate that does not
    exist, every earlier one having been tested without an exception, or
    with the exception of [exists()] at the first candidate for which it
    raises, every earlier one existing. *)
Lemma free_name_raising_spec fs outdir base ext :
  (exists k,
     search fs outdir base ext = Ret (candidate base ext k)
     ∧ exists_error (joinpath outdir (candidate base ext k)) = None
     ∧ fs !! joinpath outdir (candidate base ext k) = None
     ∧ tested_below exists_error fs outdir base ext k)
  ∨ (exists k e,
       search fs outdir base ext = Exc e
       ∧ exists_error (joinpath outdir (candidate base ext k)) = Some e
       ∧ tested_below exists_error fs outdir base ext k).
Proof.
  unfold free_name_raising. change (base ++ ext) with (candidate base ext 0).
  pose proof (free_name_loop_raising_spec fs outdir base ext (S (size fs)) 0) as H.
  destruct (free_name_loop_raising exists_error (S (size fs)) fs outdir base ext
              (candidate base ext 0) 1) as [f|e|].
  - destruct H as (k & _ & -> & ? & ? & ?); [intros j; lia|]. left. by exists k.
  - destruct H as (k & _ & ? & ?); [intros j; lia|]. right. by exists k, e.
  - assert (S (size fs) <= size fs)%nat; [|lia].
    apply (candidates_bounded fs outdir base ext). intros j Hj. apply H; [|lia].
    intros i; lia.
Qed.

(** Whatever the writer does -- select and write, fall back to the ASCII
    name, or leave with an exception of [exists()] -- the files that
    existed keep their content. *)
Lemma write_icon_raising_keeps_existing_files w outdir base ext events r w' :
  writer w outdir base ext events = (r, w') ->
  forall q, is_Some (files w !! q) -> files w' !! q = files w !! q.
Proof.
  unfold write_icon_raising.
  destruct (free_name_raising_spec (files w) outdir base ext)
    as [(k & -> & _ & Hnone & _) | (k & e & -> & _)]; [|by intros [= <- <-]].
  destruct (write_file open_error _ events w) as [[r1 rest] w1] eqn:Hw1.
  pose proof (write_file_fresh _ _ _ _ _ _ _ Hnone Hw1) as Hkeep1.
  destruct r1 as [[m|m]|]; [|by intros [= <- <-]..].
  unfold write_fallback_raising.
  destruct (free_name_raising_spec (files w1) outdir
              (ascii_fallback_name base MAX_LEN_ASCII) ext)
    as [(k2 & -> & _ & Hnone2 & _) | (k2 & e & -> & _)]; [|by intros [= <- <-]].
  destruct (write_file open_error _ rest w1) as [[r2 rest2] w2] eqn:Hw2.
  pose proof (write_file_fresh _ _ _ _ _ _ _ Hnone2 Hw2) as Hkeep2.
  intros Hr q Hq.
  assert (w' = w2) as -> by (by destruct r2; injection Hr).
  rewrite Hkeep2, Hkeep1; [done..|]. by rewrite Hkeep1.
Qed.

(** C4: the search for a name ends either with the exception that
    [exists()] raises at some candidate, which then leaves the writer
    before any file is opened, or with the first of base.ext, base_1.ext,
    base_2.ext, ... that does not exist; when the write to the selected
    path succeeds, the writer returns that path and no existing file is
    changed; a second write with the same base name and extension then
    selects a later candidate, with a numeric suffix, and leaves the
    first file as it is, unless [exists()] raises at a later candidate;
    and whatever the writer does, the files that existed keep their
    content.  The entries of the directory are the files [exists()]
    reports. *)
Theorem writer_selects_first_free_name
    (w : world) (outdir base ext : str) (events1 events2 : list stream_event) :
  ((exists k e,
     search (files w) outdir base ext = Exc e
     ∧ exists_error (joinpath outdir (candidate base ext k)) = Some e
     ∧ tested_below exists_error (files w) outdir base ext k
     ∧ writer w outdir base ext events1 = (Exc e, w))
  ∨ exists k1,
      search (files w) outdir base ext = Ret (candidate base ext k1)
      ∧ files w !! joinpath outdir (candidate base ext k1) = None
      ∧ (forall j, (j < k1)%nat ->
           is_Some (files w !! joinpath outdir (candidate base ext j)))
      ∧ forall rest w1,
          write_file open_error (joinpath outdir (candidate base ext k1)) events1 w
            = (None, rest, w1) ->
          writer w outdir base ext events1
            = (Ret (true, resolve (joinpath outdir (candidate base ext k1))), w1)
          ∧ (forall q, is_Some (files w !! q) -> files w1 !! q = files w !! q)
          ∧ is_Some (files w1 !! joinpath outdir (candidate base ext k1))
          ∧ ((exists k2 e,
                (k1 < k2)%nat
                ∧ search (files w1) outdir base ext = Exc e
                ∧ exists_error (joinpath outdir (candidate base ext k2)) = Some e
                ∧ writer w1 outdir base ext events2 = (Exc e, w1))
             ∨ exists k2,
                 (k1 < k2)%nat
                 ∧ search (files w1) outdir base ext = Ret (candidate base ext k2)
                 ∧ files w1 !! joinpath outdir (candidate base ext k2) = None
                 ∧ candidate base ext k2 = base ++ UNDERSCORE :: dec k2 ++ ext
                 ∧ joinpath outdir (candidate base ext k2)
                     ≠ joinpath outdir (candidate base ext k1)
                 ∧ forall r rest2 w2,
                     write_file open_error (joinpath outdir (candidate base ext k2))
                       events2 w1 = (r, rest2, w2) ->
                     (r = None ->
                      writer w1 outdir base ext events2
                        = (Ret (true, resolve (joinpath outdir (candidate base ext k2))), w2))
                     ∧ forall q, is_Some (files w1 !! q) ->
                         files w2 !! q = files w1 !! q))
  ∧ forall r w',
      writer w outdir base ext events1 = (r, w') ->
      forall q, is_Some (files w !! q) -> files w' !! q = files w !! q.
Proof.
  split; [|apply write_icon_raising_keeps_existing_files].
  destruct (free_name_raising_spec (files w) outdir base ext)
    as [(k1 & Hf1 & He1 & Hnone1 & Hbelow1) | (k & e & Hf & He & Hbelow)].
  2:{ left. exists k, e. repeat (split; [done|]).
      unfold write_icon_raising. by rewrite Hf. }
  right. exists k1. split; [done|]. split; [done|].
  split; [intros j Hj; by destruct (Hbelow1 j Hj)|].
  intros rest w1 Hw1.
  pose proof (write_file_fresh _ _ _ _ _ _ _ Hnone1 Hw1) as Hkeep1.
  destruct (write_file_spec _ _ _ _ _ _ _ Hw1) as (_ & Hcreated & _).
  specialize (Hcreated eq_refl).
  split; [unfold write_icon_raising; by rewrite Hf1, Hw1|].
  split; [done|]. split; [done|].
  assert (Hlater : forall k2,
            tested_below exists_error (files w1) outdir base ext k2 ->
            exists_error (joinpath outdir (candidate base ext k2)) ≠ None
            ∨ files w1 !! joinpath outdir (candidate base ext k2) = None ->
            (k1 < k2)%nat).
  { intros k2 Hbelow2 Hstop.
    destruct (decide (k1 < k2)%nat) as [|Hge]; [done|]. exfalso.
    destruct (decide (k2 = k1)) as [->|Hne].
    - destruct Hstop as [Hs | Hs]; [done|].
      rewrite Hs in Hcreated. by destruct Hcreated.
    - destruct (Hbelow1 k2 ltac:(lia)) as [Hok Hex].
      destruct Hstop as [Hs | Hs]; [done|].
      rewrite <- (Hkeep1 _ Hex), Hs in Hex. by destruct Hex. }
  destruct (free_name_raising_spec (files w1) outdir base ext)
    as [(k2 & Hf2 & He2 & Hnone2 & Hbelow2) | (k2 & e & Hf2 & He2 & Hbelow2)].
  - right. assert (Hlt : (k1 < k2)%nat) by (apply Hlater; [done | by right]).
    exists k2. split; [done|]. split; [done|]. split; [done|].
    split; [destruct k2; [lia | done]|].
    split.
    + intros H%joinpath_inj%candidate_inj. lia.
    + intros r rest2 w2 Hw2. split.
      * intros ->. unfold write_icon_raising. by rewrite Hf2, Hw2.
      * by eapply write_file_fresh.
  - left. exists k2, e.
    split; [apply Hlater; [done | left; congruence]|].
    split; [done|]. split; [done|].
    unfold write_icon_raising. by rewrite Hf2.
Qed.

(** On a file system where [exists()] raises for no path, the search and
    the writer are the ones defined without exceptions of [exists()]. *)
Lemma free_name_loop_raising_never fuel : forall fs outdir base ext filename idx,
  (forall p, exists_error p = None) ->
  free_name_loop_raising exists_error fuel fs outdir base ext filename idx
  = free_name_loop fuel fs outdir base ext filename idx.
Proof.
  induction fuel as [|fuel IH]; intros fs outdir base ext filename idx Hno;
    simpl; [done|].
  unfold exists_or_raise. rewrite Hno.
  destruct (path_exists fs (joinpath outdir filename)); [by apply IH | done].
Qed.

Lemma write_icon_raising_never w outdir base ext events :
  (forall p, exists_error p = None) ->
  writer w outdir base ext events
  = write_icon open_error resolve w outdir base ext events.
Proof.
  intros Hno. unfold write_icon_raising, write_icon, write_fallback_raising,
    write_fallback, free_name_raising, free_name.
  rewrite !free_name_loop_raising_never by done.
  destruct (free_name_loop _ _ _ _ _ _ _); [|done..].
  destruct (write_file _ _ _ _) as [[[[m|m]|] rest] w1]; [|done..].
  by rewrite free_name_loop_raising_never.
Qed.

End RaisingExistsFacts.

(** When [exists()] raises for no path, the fetch task is the one
    defined first. *)
Lemma download_icon_raising_never exists_error unquote uni_alnum urlparse lower
    guess_type open_error http_get resolve item outdir w :
  (forall p, exists_error p = None) ->
  download_icon_raising exists_error unquote uni_alnum urlparse lower guess_type
    open_error http_get resolve item outdir w
  = download_icon unquote uni_alnum urlparse lower guess_type open_error
      http_get resolve item outdir w.
Proof.
  intros Hno. unfold download_icon_raising, download_icon.
  destruct (get_text item (py "title")); [|done..].
  destruct (get_text item (py "url")); [|done..].
  destruct (get_text item (py "icon")); [|done..].
  case_bool_decide; [done|].
  destruct (base_name_of _ _ _); [|done..].
  destruct (http_get _); [|done].
  destruct (negb _); [done|].
  by apply write_icon_raising_never.
Qed.

(** ** Fetch task *)

Lemma get_text_ends item key : get_text item key ≠ Loop.
Proof.
  destruct item; try done. simpl.
  destruct (dict_get o key) as [v|]; [|done].
  destruct (truthy v); [|done]. by destruct v.
Qed.

(** Closes the cases of [download_icon_spec] in which the task ends
    before it sends a request. *)
Ltac ends_at_once :=
  do 2 eexists; (split; [reflexivity|]);
  repeat split; try done; try congruence; eauto.

Section FetchTaskFacts.

Variable unquote : str -> str.
Variable uni_alnum : codepoint -> bool.
Variable urlparse : str -> option parsed_url.
Variable lower : str -> str.
Variable guess_type : str -> option str.
Variable open_error : str -> option exn.
Variable http_get : str -> response + exn.
Variable resolve : str -> str.

#[local] Abbreviation download :=
  (download_icon unquote uni_alnum urlparse lower guess_type open_error
     http_get resolve).

(** What a call of the writer can be seen to do from outside. *)
Lemma write_icon_spec w outdir base ext events :
  exists ok info w',
    write_icon open_error resolve w outdir base ext events = (Ret (ok, info), w')
    ∧ requests w' = requests w
    ∧ (ok = true -> exists f, info = resolve (joinpath outdir f)).
Proof.
  unfold write_icon.
  destruct (free_name_first_free (files w) outdir base ext) as (k & -> & _).
  destruct (write_file _ _ _ _) as [[r rest] w1] eqn:Hw1.
  destruct (write_file_spec _ _ _ _ _ _ _ Hw1) as (_ & _ & _ & Hreq1).
  destruct r as [[m|m]|];
    [|by eexists false, _, w1|by eexists true, _, w1; eauto].
  unfold write_fallback.
  destruct (free_name_first_free (files w1) outdir
              (ascii_fallback_name base MAX_LEN_ASCII) ext) as (k2 & -> & _).
  destruct (write_file _ _ _ w1) as [[r2 rest2] w2] eqn:Hw2.
  destruct (write_file_spec _ _ _ _ _ _ _ Hw2) as (_ & _ & _ & Hreq2).
  rewrite Hreq1 in Hreq2.
  destruct r2; [by eexists false, _, w2 | by eexists true, _, w2; eauto].
Qed.

(** What a fetch task can be seen to do from outside: it ends, by
    returning or by raising; raising leaves the world as it was; a
    success names a resolved path under the output directory; and the
    only request it can issue is for the trimmed icon URL of the record,
    which is then not empty. *)
Lemma download_icon_spec item outdir w :
  exists r w',
    download item outdir w = (r, w')
    ∧ r ≠ Loop
    ∧ (forall e, r = Exc e -> w' = w)
    ∧ (forall info, r = Ret (true, info) ->
         exists f, info = resolve (joinpath outdir f))
    ∧ (requests w' = requests w
       ∨ exists u, get_text item (py "icon") = Ret u ∧ u ≠ []
                   ∧ requests w' = u :: requests w)
    ∧ (get_text item (py "icon") = Ret [] ->
       w' = w ∧ (r = Ret (false, py "no_icon_url") ∨ exists e, r = Exc e)).
Proof.
  unfold download_icon.
  destruct (get_text item (py "title")) as [title|e|] eqn:Ht;
    [|ends_at_once|by destruct (get_text_ends _ _ Ht)].
  destruct (get_text item (py "url")) as [url|e|] eqn:Hu;
    [|ends_at_once|by destruct (get_text_ends _ _ Hu)].
  destruct (get_text item (py "icon")) as [icon_url|e|] eqn:Hi;
    [|ends_at_once|by destruct (get_text_ends _ _ Hi)].
  destruct (bool_decide_reflect (icon_url = [])) as [->|Hne]; [ends_at_once|].
  destruct (base_name_of urlparse title url) as [base|e|] eqn:Hb;
    [|ends_at_once; congruence|]; cycle 1.
  { exfalso. unfold base_name_of in Hb. destruct title; [|done].
    destruct (urlparse url) as [p|]; [|done].
    by destruct (url_hostname p) as [[|? ?]|]. }
  destruct (http_get icon_url) as [resp|e].
  2:{ do 2 eexists. split; [reflexivity|]. repeat split; try done;
        try congruence.
      right. by exists icon_url. }
  destruct (negb (status_code resp =? 200)%Z).
  { do 2 eexists. split; [reflexivity|]. repeat split; try done;
      try congruence.
    right. by exists icon_url. }
  destruct (write_icon_spec (log_request icon_url w) outdir
              (safe_filename_unicode unquote uni_alnum base MAX_LEN_UNICODE)
              (choose_extension urlparse lower guess_type (content_type resp) icon_url)
              (body resp)) as (ok & info & w' & -> & Hreq & Hpath).
  do 2 eexists. split; [reflexivity|]. repeat split; try done;
    try congruence.
  - intros info' [= -> ->]. by apply Hpath.
  - right. exists icon_url. by rewrite Hreq.
Qed.

End FetchTaskFacts.

(** ** Pipeline coordinator *)

Lemma get_text_obj item key u : get_text item key = Ret u -> is_obj item.
Proof. destruct item; try done. by eexists. Qed.

(** A record from which a non-empty text is read has the field. *)
Lemma get_text_present o key u :
  get_text (JObj o) key = Ret u -> u ≠ [] -> is_Some (dict_get o key).
Proof.
  simpl. destruct (dict_get o key) as [v|]; [by eexists|].
  by intros [= <-].
Qed.

Lemma dict_get_set {V} (d : list (str * V)) k v :
  dict_get (dict_set d k v) k = Some v.
Proof.
  induction d as [|[k' v'] d IH]; simpl.
  - by rewrite decide_True.
  - destruct (decide (k' = k)) as [->|Hne]; simpl.
    + by rewrite decide_True.
    + by rewrite decide_False.
Qed.

(** Assigning to a field that is present changes that field only: same
    keys in the same order, same values under every other key. *)
Lemma dict_set_present {V} (d : list (str * V)) k v :
  is_Some (dict_get d k) ->
  Forall2 (fun kv kv' => kv.1 = kv'.1 ∧ (kv.1 ≠ k -> kv.2 = kv'.2))
    d (dict_set d k v).
Proof.
  induction d as [|[k' v'] d IH]; simpl; [by intros [? ?]|].
  destruct (decide (k' = k)) as [->|Hne].
  - intros _. constructor; [done|]. clear. by induction d; constructor.
  - intros H. constructor; [done|]. by apply IH.
Qed.

(** What the first loop of [process_all] produces from the records that
    follow index [i]. *)
Lemma prepare_spec data : forall i results0 tasks,
  prepare i data = Ret (results0, tasks) ->
  Forall (fun e : entry => exists k item,
            e = ((i + k)%nat, false, py "no_icon_url")
            ∧ data !! k = Some item
            ∧ get_text item (py "icon") = Ret []) results0
  ∧ Forall (fun t : nat * json => exists k u,
              t.1 = (i + k)%nat ∧ data !! k = Some t.2
              ∧ get_text t.2 (py "icon") = Ret u ∧ u ≠ []) tasks
  ∧ (entry_index <$> results0) ++ tasks.*1 ≡ₚ seq i (length data)
  ∧ (forall k item, data !! k = Some item ->
       get_text item (py "icon") = Ret [] ->
       ((i + k)%nat, false, py "no_icon_url") ∈ results0).
Proof.
  induction data as [|item data IH]; intros i results0 tasks; simpl.
  { intros [= <- <-]. repeat split; try constructor. intros k item; done. }
  destruct (get_text item (py "icon")) as [u| |] eqn:Hu; simpl; try done.
  destruct (prepare (S i) data) as [[rs ts]| |] eqn:Hp; simpl; try done.
  destruct (IH _ _ _ Hp) as (Hrs & Hts & Hperm & Hall).
  assert (Hrs' : Forall (fun e : entry => exists k item0,
            e = ((i + k)%nat, false, py "no_icon_url")
            ∧ (item :: data) !! k = Some item0
            ∧ get_text item0 (py "icon") = Ret []) rs).
  { eapply Forall_impl; [exact Hrs|]. intros e (k & it & -> & ? & ?).
    exists (S k), it. split; [f_equal; f_equal; lia | done]. }
  assert (Hts' : Forall (fun t : nat * json => exists k u0,
              t.1 = (i + k)%nat ∧ (item :: data) !! k = Some t.2
              ∧ get_text t.2 (py "icon") = Ret u0 ∧ u0 ≠ []) ts).
  { eapply Forall_impl; [exact Hts|]. intros t (k & u0 & -> & ? & ?).
    exists (S k), u0. split; [lia | done]. }
  destruct (bool_decide_reflect (u = [])) as [->|Hne]; intros [= <- <-].
  - split; [|split; [done|split]].
    + constructor; [|done]. exists 0%nat, item. by rewrite Nat.add_0_r.
    + simpl. by constructor.
    + intros [|k] it Hk Hit; simpl in Hk.
      * rewrite Nat.add_0_r. apply list_elem_of_here.
      * apply list_elem_of_further.
        replace (i + S k)%nat with (S i + k)%nat by lia. by eapply Hall.
  - split; [done|split; [|split]].
    + constructor; [|done]. exists 0%nat, u. simpl. by rewrite Nat.add_0_r.
    + simpl. rewrite <- Permutation_middle. by constructor.
    + intros [|k] it Hk Hit; simpl in Hk.
      * injection Hk as <-. congruence.
      * replace (i + S k)%nat with (S i + k)%nat by lia. by eapply Hall.
Qed.

Section CoordinatorFacts.

Variable unquote : str -> str.
Variable uni_alnum : codepoint -> bool.
Variable urlparse : str -> option parsed_url.
Variable lower : str -> str.
Variable guess_type : str -> option str.
Variable open_error : str -> option exn.
Variable http_get : str -> response + exn.
Variable resolve : str -> str.
Variable as_completed : list (nat * json) -> list (nat * json).
Variable relative_to : str -> str -> option str.

#[local] Abbreviation fetch :=
  (download_icon unquote uni_alnum urlparse lower guess_type open_error
     http_get resolve).
#[local] Abbreviation collect' :=
  (collect unquote uni_alnum urlparse lower guess_type open_error
     http_get resolve).
#[local] Abbreviation merge' := (merge relative_to).
#[local] Abbreviation entry_of' :=
  (entry_of_task unquote uni_alnum urlparse lower guess_type open_error
     http_get resolve).
#[local] Abbreviation run :=
  (process_all unquote uni_alnum urlparse lower guess_type open_error
     http_get resolve as_completed relative_to).

(** Collecting always ends with one entry per task, in the order of
    completion; a success names a resolved path under [outdir]; every
    request made is for the icon URL of one of the tasks. *)
Lemma collect_spec outdir order : forall w,
  exists es w',
    collect' order outdir w = (Ret es, w')
    ∧ entry_index <$> es = order.*1
    ∧ Forall2 (entry_of' outdir) order es
    ∧ Forall (fun e : entry => e.1.2 = true ->
                exists f, e.2 = resolve (joinpath outdir f)) es
    ∧ (forall u, u ∈ requests w' ->
         u ∈ requests w
         ∨ exists t, t ∈ order ∧ get_text t.2 (py "icon") = Ret u ∧ u ≠ []).
Proof.
  induction order as [|[idx item] order IH]; intros w; simpl.
  { exists [], w. split; [done|]. split; [done|].
    split; [constructor|]. split; [constructor|]. by left. }
  destruct (download_icon_spec unquote uni_alnum urlparse lower guess_type
              open_error http_get resolve item outdir w)
    as (r & w1 & Hd & Hend & _ & Hpath & Hreq & _).
  rewrite Hd.
  destruct (IH w1) as (es & w2 & Hc & Hidx & Hrel & Hres & Hreqs).
  assert (Hreqs' : forall u, u ∈ requests w2 ->
     u ∈ requests w
     ∨ exists t, t ∈ (idx, item) :: order
                 ∧ get_text t.2 (py "icon") = Ret u ∧ u ≠ []).
  { intros u [Hu | (t & Ht & ?)]%Hreqs.
    - destruct Hreq as [Heq | (u' & Hu' & Hne & Heq)]; rewrite Heq in Hu.
      + by left.
      + apply elem_of_cons in Hu as [-> | Hu]; [|by left].
        right. exists (idx, item). split; [apply list_elem_of_here | done].
    - right. exists t. split; [by apply list_elem_of_further | done]. }
  assert (Hof : forall e, record_outcome idx r = Ret e ->
            entry_of' outdir (idx, item) e).
  { intros e He. exists w. simpl. by rewrite Hd. }
  destruct r as [[ok info]|e|]; [| |done]; simpl; rewrite Hc; simpl.
  - eexists _, w2. split; [done|].
    split; [by rewrite !fmap_cons, Hidx|].
    split; [constructor; [by apply Hof | done]|].
    split; [|done]. constructor; [|done]. simpl. intros ->. by apply Hpath.
  - eexists _, w2. split; [done|].
    split; [by rewrite !fmap_cons, Hidx|].
    split; [constructor; [by apply Hof | done]|].
    split; [|done]. constructor; [|done]. done.
Qed.

(** The merge, run on results that name each record at most once: it
    ends, keeps the number of records, rewrites the icon field of the
    records with a success and leaves every other record as it was. *)
Lemma merge_spec write_relative parent : forall results data,
  Forall is_obj data ->
  Forall (fun e => (entry_index e < length data)%nat) results ->
  NoDup (entry_index <$> results) ->
  exists data',
    merge' write_relative parent results data = Ret data'
    ∧ length data' = length data
    ∧ forall i item, data !! i = Some item ->
        (forall info, (i, true, info) ∈ results ->
           exists o, item = JObj o
             ∧ data' !! i = Some (JObj (dict_set o (py "icon")
                 (JStr (local_icon relative_to write_relative parent info)))))
        ∧ ((forall info, (i, true, info) ∉ results) -> data' !! i = Some item).
Proof.
  induction results as [|[[idx ok] info] results IH]; intros data Hobj Hlt Hnd.
  { exists data. split; [done|]. split; [done|]. intros i item Hi.
    split; [by intros info ?%elem_of_nil | done]. }
  apply Forall_cons in Hlt as [Hidx Hlt].
  rewrite fmap_cons in Hnd. apply NoDup_cons in Hnd as [Hfresh Hnd].
  unfold entry_index in Hidx, Hfresh. simpl in Hidx, Hfresh.
  assert (Hnot : forall ok' info', (idx, ok', info') ∉ results).
  { intros ok' info' Hin. apply Hfresh.
    apply list_elem_of_fmap. by exists (idx, ok', info'). }
  simpl. destruct ok.
  - destruct (lookup_lt_is_Some_2 data idx Hidx) as [item0 Hitem0].
    rewrite Hitem0.
    destruct (proj1 (Forall_forall _ _) Hobj item0) as [o0 ->].
    { by eapply list_elem_of_lookup_2. }
    simpl.
    destruct (IH (<[idx := JObj (dict_set o0 (py "icon")
                (JStr (local_icon relative_to write_relative parent info)))]> data))
      as (data' & Hm & Hlen & Hspec).
    { apply Forall_insert; [done | by eexists]. }
    { by rewrite length_insert. }
    { done. }
    exists data'. split; [done|]. rewrite length_insert in Hlen.
    split; [done|]. intros i item Hi.
    destruct (decide (i = idx)) as [->|Hne].
    + rewrite Hitem0 in Hi. injection Hi as <-.
      destruct (Hspec idx (JObj (dict_set o0 (py "icon")
                  (JStr (local_icon relative_to write_relative parent info)))))
        as [_ Hsame]; [by apply list_lookup_insert_eq|].
      split.
      * intros info' [[= ->] | Hin]%elem_of_cons; [|by destruct (Hnot true info')].
        exists o0. split; [done|]. apply Hsame. intros ?; apply Hnot.
      * intros Hnone. destruct (Hnone info). apply list_elem_of_here.
    + destruct (Hspec i item) as [Hyes Hno];
        [by rewrite list_lookup_insert_ne|].
      split.
      * intros info' [[= -> ->] | Hin]%elem_of_cons; [done | by apply Hyes].
      * intros Hnone. apply Hno. intros info' Hin.
        apply (Hnone info'). by apply list_elem_of_further.
  - destruct (IH data Hobj Hlt Hnd) as (data' & Hm & Hlen & Hspec).
    exists data'. split; [done|]. split; [done|]. intros i item Hi.
    destruct (Hspec i item Hi) as [Hyes Hno]. split.
    + intros info' [[=] | Hin]%elem_of_cons. by apply Hyes.
    + intros Hnone. apply Hno. intros info' Hin.
      apply (Hnone info'). by apply list_elem_of_further.
Qed.


Lemma prepare_readable data : forall i,
  Forall readable data ->
  exists results0 tasks, prepare i data = Ret (results0, tasks).
Proof.
  induction data as [|item data IH]; intros i Hr; simpl; [by eauto|].
  apply Forall_cons in Hr as [[u ->] Hr]. simpl.
  destruct (IH (S i) Hr) as (rs & ts & ->). simpl.
  destruct (bool_decide (u = [])); eauto.
Qed.

Lemma prepare_objects data : forall i results0 tasks,
  prepare i data = Ret (results0, tasks) -> Forall is_obj data.
Proof.
  induction data as [|item data IH]; intros i results0 tasks; simpl;
    [by constructor|].
  destruct (get_text item (py "icon")) as [u| |] eqn:Hu; simpl; try done.
  destruct (prepare (S i) data) as [[rs ts]| |] eqn:Hp; simpl; try done.
  intros _. constructor; [by eapply get_text_obj | by eapply IH].
Qed.

Lemma NoDup_fmap_same {A B} (f : A -> B) (l : list A) x y :
  NoDup (f <$> l) -> x ∈ l -> y ∈ l -> f x = f y -> x = y.
Proof.
  induction l as [|a l IH]; [by intros _ ?%elem_of_nil|].
  rewrite fmap_cons, NoDup_cons. intros [Ha Hnd].
  intros [-> | Hx]%elem_of_cons [-> | Hy]%elem_of_cons Hf; [done| | |by apply IH].
  - destruct Ha. rewrite Hf. by apply list_elem_of_fmap_2.
  - destruct Ha. rewrite <- Hf. by apply list_elem_of_fmap_2.
Qed.

(** The order in which the futures complete is some order of the tasks
    submitted. *)
Hypothesis as_completed_perm : forall tasks, as_completed tasks ≡ₚ tasks.

(** The shape of a run that ends: the results are the entries of the
    first loop followed by one entry per task, the indices of the results
    are those of the records, each once, and the output is the merge of
    the results into the input. *)
Lemma run_inv data parent outdir write_relative w data' results w' :
  run data parent outdir write_relative w = Ret (data', results, w') ->
  exists results0 tasks order es,
    prepare 0 data = Ret (results0, tasks)
    ∧ order ≡ₚ tasks
    ∧ collect' order outdir w = (Ret es, w')
    ∧ results = results0 ++ es
    ∧ entry_index <$> es = order.*1
    ∧ entry_index <$> results ≡ₚ seq 0 (length data)
    ∧ merge' write_relative parent results data = Ret data'.
Proof.
  unfold process_all.
  destruct (prepare 0 data) as [[results0 tasks]| |] eqn:Hp; simpl; try done.
  set (order := match tasks with [] => [] | _ :: _ => as_completed tasks end).
  assert (Hord : order ≡ₚ tasks).
  { subst order. destruct tasks; [done | apply as_completed_perm]. }
  destruct (collect_spec outdir order w) as (es & w1 & Hc & Hidx & _).
  rewrite Hc. simpl.
  destruct (merge' write_relative parent (results0 ++ es) data) as [d| |] eqn:Hm;
    simpl; try done.
  intros [= <- <- <-].
  exists results0, tasks, order, es. repeat (split; [done|]).
  split; [|done].
  destruct (prepare_spec _ _ _ _ Hp) as (_ & _ & Hperm & _).
  by rewrite fmap_app, Hidx, Hord.
Qed.

(** On an input whose records can all be read, the run ends. *)
Lemma run_ends data parent outdir write_relative w :
  Forall readable data ->
  exists data' results w',
    run data parent outdir write_relative w = Ret (data', results, w').
Proof.
  intros Hr. destruct (prepare_readable data 0 Hr) as (results0 & tasks & Hp).
  unfold process_all. rewrite Hp. simpl.
  set (order := match tasks with [] => [] | _ :: _ => as_completed tasks end).
  assert (Hord : order ≡ₚ tasks).
  { subst order. destruct tasks; [done | apply as_completed_perm]. }
  destruct (collect_spec outdir order w) as (es & w1 & Hc & Hidx & _).
  rewrite Hc. simpl.
  destruct (prepare_spec _ _ _ _ Hp) as (_ & _ & Hperm & _).
  assert (Hall : entry_index <$> (results0 ++ es) ≡ₚ seq 0 (length data)).
  { by rewrite fmap_app, Hidx, Hord. }
  destruct (merge_spec write_relative parent (results0 ++ es) data)
    as (data' & -> & _).
  - by eapply prepare_objects.
  - apply Forall_forall. intros e He.
    assert (Hin : entry_index e ∈ seq 0 (length data)).
    { rewrite <- Hall. by apply list_elem_of_fmap_2. }
    apply elem_of_seq in Hin. lia.
  - rewrite Hall. apply NoDup_seq.
  - simpl. eauto.
Qed.

(** Facts about one entry of the results of a run that ended. *)
Lemma run_entry data parent outdir write_relative w data' results w' i ok info :
  run data parent outdir write_relative w = Ret (data', results, w') ->
  (i, ok, info) ∈ results ->
  NoDup (entry_index <$> results)
  ∧ (forall ok' info', (i, ok', info') ∈ results -> ok' = ok ∧ info' = info)
  ∧ exists o, data !! i = Some (JObj o)
      ∧ (ok = true ->
         is_Some (dict_get o (py "icon"))
         ∧ (exists f, info = resolve (joinpath outdir f))
         ∧ data' !! i = Some (JObj (dict_set o (py "icon")
             (JStr (local_icon relative_to write_relative parent info)))))
      ∧ (ok = false -> data' !! i = Some (JObj o)).
Proof.
  intros Hrun Hin.
  destruct (run_inv _ _ _ _ _ _ _ _ Hrun)
    as (results0 & tasks & order & es & Hp & Hord & Hc & -> & Hidx & Hall & Hm).
  assert (Hnd : NoDup (entry_index <$> (results0 ++ es))).
  { rewrite Hall. apply NoDup_seq. }
  assert (Hone : forall ok' info',
            (i, ok', info') ∈ results0 ++ es -> ok' = ok ∧ info' = info).
  { intros ok' info' Hin'.
    pose proof (NoDup_fmap_same entry_index _ _ _ Hnd Hin Hin' eq_refl) as [= -> ->].
    done. }
  split; [done|]. split; [done|].
  assert (Hi : i ∈ seq 0 (length data)).
  { rewrite <- Hall. by apply (list_elem_of_fmap_2 entry_index) in Hin. }
  apply elem_of_seq in Hi.
  destruct (lookup_lt_is_Some_2 data i ltac:(lia)) as [item Hitem].
  pose proof (prepare_objects _ _ _ _ Hp) as Hobj.
  destruct (proj1 (Forall_forall _ _) Hobj item) as [o ->];
    [by eapply list_elem_of_lookup_2|].
  exists o. split; [done|].
  destruct (merge_spec write_relative parent (results0 ++ es) data Hobj)
    as (d & Hm' & _ & Hspec).
  { apply Forall_forall. intros e He.
    assert (Hin' : entry_index e ∈ seq 0 (length data)).
    { rewrite <- Hall. by apply list_elem_of_fmap_2. }
    apply elem_of_seq in Hin'. lia. }
  { done. }
  rewrite Hm in Hm'. injection Hm' as <-.
  destruct (Hspec i (JObj o) Hitem) as [Hyes Hno].
  destruct (prepare_spec _ _ _ _ Hp) as (Hrs & Hts & _ & _).
  destruct (collect_spec outdir order w) as (es' & w1 & Hc' & _ & _ & Hres & _).
  rewrite Hc in Hc'. injection Hc' as <- <-.
  split.
  - intros ->.
    destruct (Hyes info Hin) as (o' & [= <-] & Hd).
    apply elem_of_app in Hin as [Hin | Hin].
    { apply (proj1 (Forall_forall _ _) Hrs) in Hin as (k & it & [=] & _). }
    split; [|split; [|done]].
    + apply (list_elem_of_fmap_2 entry_index) in Hin.
      rewrite Hidx, Hord in Hin.
      apply list_elem_of_fmap in Hin as ([j it] & Hj & Ht).
      apply (proj1 (Forall_forall _ _) Hts) in Ht as (k & u & Hk & Hlk & Hu & Hne).
      unfold entry_index in Hj. simpl in Hj, Hk, Hlk, Hu.
      assert (k = i) as -> by lia.
      rewrite Hitem in Hlk. injection Hlk as <-.
      by eapply get_text_present.
    + by apply (proj1 (Forall_forall _ _) Hres) in Hin.
  - intros ->. apply Hno. intros info' Hin'.
    by destruct (Hone _ _ Hin').
Qed.

Lemma run_length data parent outdir write_relative w data' results w' :
  run data parent outdir write_relative w = Ret (data', results, w') ->
  length data' = length data.
Proof.
  intros Hrun.
  destruct (run_inv _ _ _ _ _ _ _ _ Hrun)
    as (results0 & tasks & order & es & Hp & _ & _ & -> & _ & Hall & Hm).
  destruct (merge_spec write_relative parent (results0 ++ es) data)
    as (d & Hm' & Hlen & _).
  - by eapply prepare_objects.
  - apply Forall_forall. intros e He.
    assert (Hin : entry_index e ∈ seq 0 (length data)).
    { rewrite <- Hall. by apply list_elem_of_fmap_2. }
    apply elem_of_seq in Hin. lia.
  - rewrite Hall. apply NoDup_seq.
  - rewrite Hm in Hm'. by injection Hm' as <-.
Qed.

(** Every record has an entry in the results of a run that ended. *)
Lemma run_covers data parent outdir write_relative w data' results w' i :
  run data parent outdir write_relative w = Ret (data', results, w') ->
  (i < length data)%nat ->
  exists ok info, (i, ok, info) ∈ results.
Proof.
  intros Hrun Hi.
  destruct (run_inv _ _ _ _ _ _ _ _ Hrun)
    as (results0 & tasks & order & es & _ & _ & _ & _ & _ & Hall & _).
  assert (Hin : i ∈ entry_index <$> results).
  { rewrite Hall. apply elem_of_seq. lia. }
  apply list_elem_of_fmap in Hin as ([[j ok] info] & Hj & Hin).
  unfold entry_index in Hj. simpl in Hj. subst j. eauto.
Qed.

(** C1: after the merge, the icon field of a record whose outcome is a
    success holds the resolved path the writer returned -- or that path
    relative to the directory of the record file when relative paths are
    asked for and the path can be made relative -- and a record whose
    outcome is a failure is exactly as it was. *)
Theorem merge_applies_each_outcome
    data parent outdir write_relative w data' results w' i ok info :
  run data parent outdir write_relative w = Ret (data', results, w') ->
  (i, ok, info) ∈ results ->
  exists o,
    data !! i = Some (JObj o)
    ∧ (ok = true ->
       exists o',
         data' !! i = Some (JObj o')
         ∧ dict_get o' (py "icon")
             = Some (JStr (local_icon relative_to write_relative parent info))
         ∧ (exists f, info = resolve (joinpath outdir f))
         ∧ local_icon relative_to write_relative parent info
             = (if write_relative
                then match relative_to info parent with
                     | Some rel => rel
                     | None => info
                     end
                else info))
    ∧ (ok = false -> data' !! i = Some (JObj o)).
Proof.
  intros Hrun Hin.
  destruct (run_entry _ _ _ _ _ _ _ _ _ _ _ Hrun Hin)
    as (_ & _ & o & Hi & Hyes & Hno).
  exists o. split; [done|]. split; [|done].
  intros Hok. destruct (Hyes Hok) as (_ & Hf & Hd).
  eexists. split; [exact Hd|]. split; [apply dict_get_set|].
  split; [done|]. unfold local_icon.
  destruct write_relative; [|done]. by destruct (relative_to info parent).
Qed.

(** C2: whatever the order in which the tasks complete, the collection
    written at the end of a run has as many records as the input, in the
    same order, each with the same fields in the same order and the same
    value in every field other than icon. *)
Theorem output_keeps_records_and_order
    data parent outdir write_relative w data' results w' :
  run data parent outdir write_relative w = Ret (data', results, w') ->
  length data' = length data ∧ Forall2 same_but_icon data data'.
Proof.
  intros Hrun. pose proof (run_length _ _ _ _ _ _ _ _ Hrun) as Hlen.
  split; [done|].
  apply Forall2_same_length_lookup_2; [done|].
  intros i x y Hx Hy.
  destruct (run_covers _ _ _ _ _ _ _ _ i Hrun) as (ok & info & Hin).
  { by eapply lookup_lt_Some. }
  destruct (run_entry _ _ _ _ _ _ _ _ _ _ _ Hrun Hin)
    as (_ & _ & o & Hi & Hyes & Hno).
  rewrite Hx in Hi. injection Hi as ->.
  destruct ok.
  - destruct (Hyes eq_refl) as (Hkey & _ & Hd).
    rewrite Hy in Hd. injection Hd as ->.
    eexists _, _. split; [done|]. split; [done|].
    by apply dict_set_present.
  - rewrite (Hno eq_refl) in Hy. injection Hy as <-.
    exists o, o. split; [done|]. split; [done|].
    clear. by induction o; constructor.
Qed.

(** C6: a record whose icon field is empty once trimmed gets the
    outcome "no_icon_url" and no other; it is not among the tasks
    submitted, a fetch task run on it would leave the world untouched,
    every request of the run is for the non-empty icon URL of some
    record, and the record is unchanged in the output. *)
Theorem record_without_icon_is_skipped
    data parent outdir write_relative w data' results w' i item :
  run data parent outdir write_relative w = Ret (data', results, w') ->
  data !! i = Some item ->
  get_text item (py "icon") = Ret [] ->
  (i, false, py "no_icon_url") ∈ results
  ∧ (forall ok info, (i, ok, info) ∈ results ->
       ok = false ∧ info = py "no_icon_url")
  ∧ (forall results0 tasks,
       prepare 0 data = Ret (results0, tasks) -> i ∉ tasks.*1)
  ∧ (forall w0, (fetch item outdir w0).2 = w0)
  ∧ (forall u, u ∈ requests w' ->
       u ∈ requests w
       ∨ exists j item', data !! j = Some item'
                         ∧ get_text item' (py "icon") = Ret u ∧ u ≠ [])
  ∧ data' !! i = Some item.
Proof.
  intros Hrun Hi Hicon.
  destruct (run_inv _ _ _ _ _ _ _ _ Hrun)
    as (results0 & tasks & order & es & Hp & Hord & Hc & Hres & Hidx & Hall & Hm).
  destruct (prepare_spec _ _ _ _ Hp) as (Hrs & Hts & Hperm & Hmark).
  assert (Hin0 : (i, false, py "no_icon_url") ∈ results0).
  { by apply (Hmark i item Hi Hicon). }
  assert (Hin : (i, false, py "no_icon_url") ∈ results).
  { rewrite Hres. apply elem_of_app. by left. }
  destruct (run_entry _ _ _ _ _ _ _ _ _ _ _ Hrun Hin)
    as (_ & Hone & o & Hi' & _ & Hno).
  split; [done|]. split; [done|]. split; [|split; [|split]].
  - intros results0' tasks' Hp'. rewrite Hp in Hp'. injection Hp' as <- <-.
    intros Ht.
    assert (Hnd : NoDup ((entry_index <$> results0) ++ tasks.*1)).
    { rewrite Hperm. apply NoDup_seq. }
    apply NoDup_app in Hnd as (_ & Hdisj & _).
    apply (Hdisj i); [|done].
    by apply (list_elem_of_fmap_2 entry_index) in Hin0.
  - intros w0.
    destruct (download_icon_spec unquote uni_alnum urlparse lower guess_type
                open_error http_get resolve item outdir w0)
      as (r & w1 & Hd & _ & _ & _ & _ & Hskip).
    rewrite Hd. simpl. by destruct (Hskip Hicon).
  - intros u Hu.
    destruct (collect_spec outdir order w) as (es' & w1 & Hc' & _ & _ & _ & Hreq).
    rewrite Hc in Hc'. injection Hc' as <- <-.
    destruct (Hreq u Hu) as [? | ([j it] & Ht & Hget & Hne)]; [by left|].
    right. rewrite Hord in Ht.
    apply (proj1 (Forall_forall _ _) Hts) in Ht as (k & u' & _ & Hlk & _ & _).
    exists k, it. done.
  - rewrite Hi in Hi'. injection Hi' as ->. by apply Hno.
Qed.

(** C8: on an input whose records can all be read, the run ends with
    exactly one outcome per record index; the outcomes of the tasks are
    all collected before the merge, in the order of completion; and a
    task that raises is recorded as a failure "exception:" followed by
    the message, without ending the run. *)
Theorem every_record_gets_one_outcome data parent outdir write_relative w :
  Forall readable data ->
  exists data' results w',
    run data parent outdir write_relative w = Ret (data', results, w')
    ∧ entry_index <$> results ≡ₚ seq 0 (length data)
    ∧ (forall i, (i < length data)%nat ->
         exists ok info, (i, ok, info) ∈ results
           ∧ forall ok' info', (i, ok', info') ∈ results ->
               ok' = ok ∧ info' = info)
    ∧ (exists results0 tasks order es,
         prepare 0 data = Ret (results0, tasks)
         ∧ order ≡ₚ tasks
         ∧ results = results0 ++ es
         ∧ Forall2 (entry_of' outdir) order es
         ∧ merge' write_relative parent results data = Ret data')
    ∧ (forall idx e,
         record_outcome idx (Exc e)
           = Ret (idx, false, py "exception:" ++ exn_msg e)).
Proof.
  intros Hr.
  destruct (run_ends data parent outdir write_relative w Hr)
    as (data' & results & w' & Hrun).
  exists data', results, w'. split; [done|].
  destruct (run_inv _ _ _ _ _ _ _ _ Hrun)
    as (results0 & tasks & order & es & Hp & Hord & Hc & Hres & Hidx & Hall & Hm).
  split; [done|]. split; [|split; [|done]].
  - intros i Hi.
    destruct (run_covers _ _ _ _ _ _ _ _ i Hrun Hi) as (ok & info & Hin).
    exists ok, info. split; [done|].
    by destruct (run_entry _ _ _ _ _ _ _ _ _ _ _ Hrun Hin) as (_ & Hone & _).
  - exists results0, tasks, order, es. repeat (split; [done|]).
    split; [|done].
    destruct (collect_spec outdir order w) as (es' & w1 & Hc' & _ & Hrel & _).
    rewrite Hc in Hc'. by injection Hc' as <- <-.
Qed.

End CoordinatorFacts.

(** ** The library instances satisfy what the theorems assume *)

Lemma unquote_ascii_cons c s :
  (c =? PERCENT) = false -> unquote_ascii (c :: s) = c :: unquote_ascii s.
Proof. intros H. destruct s as [|a [|b rest]]; simpl; by rewrite ?H. Qed.

Lemma unquote_ascii_plain s : PERCENT ∉ s -> unquote_ascii s = s.
Proof.
  induction s as [|c s IH]; [done|].
  intros [Hc Hs]%not_elem_of_cons.
  rewrite unquote_ascii_cons by (by apply N.eqb_neq).
  by rewrite IH.
Qed.

Lemma cyrillic_not_control c :
  is_ascii c = false -> cyrillic_alnum c = true -> is_control c = false.
Proof. unfold cyrillic_alnum. char_facts. Qed.

Lemma cyrillic_not_space c :
  is_ascii c = false -> cyrillic_alnum c = true -> is_space c = false.
Proof. unfold cyrillic_alnum. char_facts. Qed.

Lemma lower_ascii_empty : lower_ascii [] = [].
Proof. reflexivity. Qed.

Lemma lower_ascii_dot s : exists t, lower_ascii (DOT :: s) = DOT :: t.
Proof. eexists. reflexivity. Qed.

Lemma rev_completes (tasks : list (nat * json)) : rev tasks ≡ₚ tasks.
Proof. symmetry. apply Permutation_rev. Qed.

(** ** The theorems at concrete inputs *)

Lemma sanitizers_produce_safe_names_witness :
  let u := safe_filename_unicode unquote_ascii cyrillic_alnum
             (py "a/b  c%41 ") MAX_LEN_UNICODE in
  u ≠ [] ∧ (SLASH ∉ u) ∧ (BACKSLASH ∉ u)
  ∧ Forall (fun c => is_control c = false) u ∧ (length u <= 120)%nat.
Proof.
  exact (proj1 (sanitizers_produce_safe_names unquote_ascii cyrillic_alnum
                  cyrillic_not_control (py "a/b  c%41 "))).
Defined.

Lemma whitespace_only_gives_file_witness :
  py "   " ≠ []
  ∧ safe_filename_unicode unquote_ascii cyrillic_alnum (py "   ") MAX_LEN_UNICODE
      = py "file".
Proof.
  assert (Hne : py "   " ≠ []) by (by vm_compute).
  split; [exact Hne|].
  refine (proj1 (proj2 (whitespace_only_gives_file unquote_ascii cyrillic_alnum
                          unquote_ascii_plain (py "   ") MAX_LEN_UNICODE Hne) _)).
  by repeat constructor.
Defined.

Lemma safe_filename_unicode_idempotent_witness :
  safe_filename_unicode unquote_ascii cyrillic_alnum
    (safe_filename_unicode unquote_ascii cyrillic_alnum (py "a%2Fb c") MAX_LEN_UNICODE)
    MAX_LEN_UNICODE
  = safe_filename_unicode unquote_ascii cyrillic_alnum (py "a%2Fb c") MAX_LEN_UNICODE.
Proof.
  exact (proj1 (safe_filename_unicode_idempotent unquote_ascii cyrillic_alnum
                  unquote_ascii_plain cyrillic_not_space (py "a%2Fb c"))).
Defined.

Lemma choose_extension_precedence_witness :
  let header := py " Image/PNG ; charset=binary" in
  let url := py "http://example.com/a.b/favicon.ICO?v=2" in
  main_type_of header (py "Image/PNG")
  ∧ extension_of_path (py "/a.b/favicon.ICO") (py ".ICO")
  ∧ normalize_content_type lower_ascii (Some header) = lower_ascii (py "Image/PNG")
  ∧ ext_from_url urlparse_simple lower_ascii url = lower_ascii (py ".ICO")
  ∧ exists t, choose_extension urlparse_simple lower_ascii guess_type_none
                (Some header) url = DOT :: t.
Proof.
  intros header url.
  assert (Hm : main_type_of header (py "Image/PNG")).
  { exists (py " "), (py " "), (py "; charset=binary").
    split; [reflexivity|]. split; [by repeat constructor|].
    split; [by repeat constructor|]. split; [right; by eexists|].
    split; [intros Hin%list_elem_of_In; vm_compute in Hin; intuition discriminate|].
    right. split; [by eexists _, _ | by exists (py "Image/PN"), 71]. }
  assert (He : extension_of_path (py "/a.b/favicon.ICO") (py ".ICO")).
  { exists (py "/a.b/"), (py "favicon.ICO"). split; [reflexivity|].
    split; [intros Hin%list_elem_of_In; vm_compute in Hin; intuition discriminate|].
    split; [right; by exists (py "/a.b")|].
    right. exists (py "favicon"), (py "ICO"). split; [reflexivity|].
    split; [intros Hin%list_elem_of_In; vm_compute in Hin; intuition discriminate|].
    left. split; [|reflexivity]. exists 102. split; [|discriminate].
    apply list_elem_of_In. vm_compute. tauto. }
  destruct (choose_extension_precedence urlparse_simple lower_ascii guess_type_none
              lower_ascii_empty lower_ascii_dot (Some header) url)
    as (_ & Hct & _ & Hext & _ & _ & _ & _ & _ & _ & Hdot).
  split; [exact Hm|]. split; [exact He|].
  split; [exact (Hct header _ eq_refl Hm)|].
  split; [exact (Hext {| url_path := py "/a.b/favicon.ICO";
                        url_hostname := Some (py "example.com") |} _
                   ltac:(vm_compute; reflexivity) He)|].
  exact Hdot.
Defined.

(** The code and the wording of the specification part on a URL whose
    extension has capitals, and on a header with whitespace before the
    semicolon. *)
Lemma choose_extension_not_as_worded :
  (choose_extension_as_worded urlparse_simple lower_ascii guess_type_none
     (Some (py "text/html")) (py "http://example.com/favicon.ICO") = py ".ICO"
   ∧ choose_extension urlparse_simple lower_ascii guess_type_none
       (Some (py "text/html")) (py "http://example.com/favicon.ICO") = py ".ico")
  ∧ (choose_extension_as_worded urlparse_simple lower_ascii guess_type_none
       (Some (py "image/png ; charset=binary")) (py "http://example.com/icon.gif")
     = py ".gif"
     ∧ choose_extension urlparse_simple lower_ascii guess_type_none
         (Some (py "image/png ; charset=binary")) (py "http://example.com/icon.gif")
       = py ".png")
  ∧ choose_extension urlparse_simple lower_ascii guess_type_none
      (Some (py "text/html")) (py "http://example.com/favicon.ICO")
    ≠ choose_extension_as_worded urlparse_simple lower_ascii guess_type_none
        (Some (py "text/html")) (py "http://example.com/favicon.ICO").
Proof. repeat split; by vm_compute. Qed.


Lemma merge_applies_each_outcome_witness :
  exists data' results w' o,
    sample_run icon_server any_name_fs sample_data = Ret (data', results, w')
    ∧ (0%nat, true, py "/home/icons/Example_1.ico") ∈ results
    ∧ sample_data !! 0%nat = Some (JObj o)
    ∧ exists o',
        data' !! 0%nat = Some (JObj o')
        ∧ dict_get o' (py "icon")
            = Some (JStr (local_icon relative_to_prefix true (py "/home")
                            (py "/home/icons/Example_1.ico"))).
Proof.
  destruct (sample_run icon_server any_name_fs sample_data)
    as [[[data' results] w']| |] eqn:Hrun;
    [|vm_compute in Hrun; discriminate Hrun..].
  assert (Hin : (0%nat, true, py "/home/icons/Example_1.ico") ∈ results).
  { vm_compute in Hrun. injection Hrun as <- <- <-.
    apply list_elem_of_In. vm_compute. tauto. }
  destruct (merge_applies_each_outcome _ _ _ _ _ _ _ _ _ _ rev_completes
              _ _ _ _ _ _ _ _ _ _ _ Hrun Hin) as (o & Ho & Hyes & _).
  destruct (Hyes eq_refl) as (o' & Hd & Hicon & _).
  exists data', results, w', o. split; [reflexivity|]. split; [exact Hin|].
  split; [exact Ho|]. exists o'. split; [exact Hd | exact Hicon].
Defined.

Lemma output_keeps_records_and_order_witness :
  exists data' results w',
    sample_run icon_server any_name_fs sample_data = Ret (data', results, w')
    ∧ length data' = length sample_data
    ∧ Forall2 same_but_icon sample_data data'.
Proof.
  destruct (sample_run icon_server any_name_fs sample_data)
    as [[[data' results] w']| |] eqn:Hrun;
    [|vm_compute in Hrun; discriminate Hrun..].
  exists data', results, w'. split; [reflexivity|].
  exact (output_keeps_records_and_order _ _ _ _ _ _ _ _ _ _ rev_completes
           _ _ _ _ _ _ _ _ Hrun).
Defined.

Lemma record_without_icon_is_skipped_witness :
  exists data' results w',
    sample_run icon_server any_name_fs sample_data = Ret (data', results, w')
    ∧ sample_data !! 1%nat = Some (bookmark "x" "u" "  ")
    ∧ get_text (bookmark "x" "u" "  ") (py "icon") = Ret []
    ∧ (1%nat, false, py "no_icon_url") ∈ results
    ∧ data' !! 1%nat = Some (bookmark "x" "u" "  ").
Proof.
  destruct (sample_run icon_server any_name_fs sample_data)
    as [[[data' results] w']| |] eqn:Hrun;
    [|vm_compute in Hrun; discriminate Hrun..].
  assert (Hi : sample_data !! 1%nat = Some (bookmark "x" "u" "  ")) by reflexivity.
  assert (Hicon : get_text (bookmark "x" "u" "  ") (py "icon") = Ret [])
    by (vm_compute; reflexivity).
  destruct (record_without_icon_is_skipped _ _ _ _ _ _ _ _ _ _ rev_completes
              _ _ _ _ _ _ _ _ _ _ Hrun Hi Hicon) as (Hin & _ & _ & _ & _ & Hout).
  exists data', results, w'. split; [reflexivity|].
  split; [exact Hi|]. split; [exact Hicon|]. split; [exact Hin | exact Hout].
Defined.

Lemma every_record_gets_one_outcome_witness :
  Forall readable odd_data
  ∧ exists data' results w',
      sample_run icon_server any_name_fs odd_data = Ret (data', results, w')
      ∧ entry_index <$> results ≡ₚ seq 0 (length odd_data).
Proof.
  assert (Hr : Forall readable odd_data).
  { repeat constructor; eexists; vm_compute; reflexivity. }
  split; [exact Hr|].
  destruct (every_record_gets_one_outcome unquote_ascii cyrillic_alnum
              urlparse_simple lower_ascii guess_type_none any_name_fs icon_server
              resolve_id (@rev _) relative_to_prefix rev_completes
              odd_data (py "/home") (py "/home/icons") true empty_world Hr)
    as (data' & results & w' & Hrun & Hperm & _).
  exists data', results, w'. split; [exact Hrun | exact Hperm].
Defined.

(** ** Scenarios *)

Example sanitize_mixed :
  safe_filename_unicode unquote_ascii cyrillic_alnum (py "a/b  c%41%2F..") 120
  = py "a_b_cA_..".
Proof. reflexivity. Qed.

Example sanitize_keeps_cyrillic :
  safe_filename_unicode unquote_ascii cyrillic_alnum (primer ++ py " !") 120
  = primer ++ py "_".
Proof. reflexivity. Qed.

Example fallback_of_cyrillic : ascii_fallback_name primer 80 = py "file".
Proof. reflexivity. Qed.

Example extension_of_upper_case_url :
  choose_extension urlparse_simple lower_ascii guess_type_none
    (Some (py "text/html")) (py "http://example.com/favicon.ICO?v=2")
  = py ".ico".
Proof. reflexivity. Qed.

Example extension_of_padded_header :
  choose_extension urlparse_simple lower_ascii guess_type_none
    (Some (py " Image/PNG ; charset=binary")) (py "http://example.com/favicon.ico")
  = py ".png".
Proof. reflexivity. Qed.

Example third_name_is_free :
  free_name two_files (py "/icons") (py "x") (py ".png") = Ret (py "x_2.png").
Proof. vm_compute. reflexivity. Qed.

(** The same search on a file system with names of at most 255 bytes. *)
Example third_name_is_free_when_names_fit :
  free_name_raising long_name_fs two_files (py "/icons") (py "x") (py ".png")
  = Ret (py "x_2.png").
Proof. vm_compute. reflexivity. Qed.

(** A name of 254 bytes exists; the next candidate has 256 bytes, and the
    search ends with the exception [exists()] raises for it. *)
Example second_name_is_too_long :
  let base := replicate 83 20013 ++ py "a" in
  let taken := py "/icons/" ++ base ++ py ".png" in
  let next := py "/icons/" ++ base ++ py "_1.png" in
  utf8_length (base ++ py ".png") = 254%nat
  ∧ free_name_raising long_name_fs (<[taken := []]> ∅) (py "/icons") base (py ".png")
    = Exc (OSError (py "[Errno 36] File name too long: '" ++ next ++ py "'")).
Proof. vm_compute. split; reflexivity. Qed.

(** Two records with the same title and icon URL are written to
    [Example.ico] and [Example_1.ico], in the order of completion; the blank
    record is left as it is. *)
Example same_title_twice :
  records_and_results (sample_run icon_server any_name_fs sample_data)
  = Some
      ([ bookmark "Example" "http://example.com" "icons/Example_1.ico";
         bookmark "x" "u" "  ";
         bookmark "Example" "http://example.com" "icons/Example.ico" ],
       [ (1%nat, false, py "no_icon_url");
         (2%nat, true, py "/home/icons/Example.ico");
         (0%nat, true, py "/home/icons/Example_1.ico") ]).
Proof. vm_compute. reflexivity. Qed.

Example not_found_leaves_icon :
  records_and_results (sample_run not_found_server any_name_fs sample_data)
  = Some
      (sample_data,
       [ (1%nat, false, py "no_icon_url");
         (2%nat, false, py "http_404");
         (0%nat, false, py "http_404") ]).
Proof. vm_compute. reflexivity. Qed.

(** A file system that refuses the Cyrillic name: the icon goes to
    [file.ico] and the task succeeds. *)
Example cyrillic_title_falls_back :
  records_and_results
    (sample_run icon_server ascii_only_fs
       [JObj [(py "title", JStr primer);
              (py "icon", JStr (py "http://example.com/favicon.ico"))]])
  = Some
      ([JObj [(py "title", JStr primer); (py "icon", JStr (py "icons/file.ico"))]],
       [(0%nat, true, py "/home/icons/file.ico")]).
Proof. vm_compute. reflexivity. Qed.

(** A task that raises is recorded as a failure and the run goes on. *)
(** A title of 120 ideographs is kept whole by the sanitizer, the file
    name is longer than the file system allows, and [exists()] raises at
    line 160: the task ends with that exception after its request,
    without opening a file, and the run records it as a failure. *)
Example long_name_makes_the_task_raise :
  let item := JObj [ (py "title", JStr long_title);
                     (py "url", JStr (py "http://example.com"));
                     (py "icon", JStr (py "http://example.com/favicon.ico")) ] in
  let path := py "/home/icons/" ++ long_title ++ py ".ico" in
  let message := py "[Errno 36] File name too long: '" ++ path ++ py "'" in
  sample_fetch_raising long_name_fs item
  = (Exc (OSError message),
     log_request (py "http://example.com/favicon.ico") empty_world)
  ∧ record_outcome 0 (sample_fetch_raising long_name_fs item).1
    = Ret (0%nat, false, py "exception:" ++ message).
Proof. by vm_compute. Qed.

Example raising_task_is_recorded :
  records_and_results (sample_run icon_server any_name_fs odd_data)
  = Some
      ([ JObj [(py "title", JNum 5);
               (py "icon", JStr (py "http://example.com/i.png"))];
         bookmark "Example" "http://example.com" "icons/Example.ico" ],
       [ (1%nat, true, py "/home/icons/Example.ico");
         (0%nat, false, py "exception:'int' object has no attribute 'strip'") ]).
Proof. vm_compute. reflexivity. Qed.

(** * Further properties *)

(** ** Filename sanitizer *)

Section SanitizerMore.

Variable unquote : str -> str.
Variable uni_alnum : codepoint -> bool.

#[local] Abbreviation keep2 := (keep_char uni_alnum).
#[local] Abbreviation safe2 := (safe_filename_unicode unquote uni_alnum).

(** A kept character in the ASCII range is one of [[A-Za-z0-9\-\._]]. *)
Lemma keep_char_ascii c :
  keep2 c = true -> is_ascii c = true -> ascii_name_char c = true.
Proof.
  intros [H | [Ha _]]%keep_char_cases Hc; [done | congruence].
Qed.

Lemma clean_ascii_same s :
  Forall (fun c => ascii_name_char c = true) s -> clean_ascii s = s.
Proof.
  intros H. unfold clean_ascii, ascii_only.
  rewrite (filter_same is_ascii)
    by (eapply Forall_impl; [exact H|]; apply ascii_name_char_ascii).
  rewrite (filter_same ascii_name_char) by done.
  apply strip_same. eapply Forall_impl; [exact H|].
  apply ascii_name_char_not_space.
Qed.

(** X3: the ASCII fallback leaves a name alone when it is non-empty, made of
    ASCII letters, digits, hyphens, dots and underscores only and no
    longer than the cap; hence for a cap that is not negative, applying it
    twice is applying it once. *)
Theorem ascii_fallback_name_fixes_plain_names (name : str) (max_len : Z) :
  (0 <= max_len)%Z ->
  (forall s, s ≠ [] -> Forall (fun c => ascii_name_char c = true) s ->
     (Z.of_nat (length s) <= max_len)%Z -> ascii_fallback_name s max_len = s)
  ∧ ascii_fallback_name (ascii_fallback_name name max_len) max_len
    = ascii_fallback_name name max_len.
Proof.
  intros Hml.
  assert (Hfix : forall s, s ≠ [] ->
            Forall (fun c => ascii_name_char c = true) s ->
            (Z.of_nat (length s) <= max_len)%Z -> ascii_fallback_name s max_len = s).
  { intros s Hne Hs Hlen. unfold ascii_fallback_name.
    rewrite (clean_ascii_same s Hs). destruct s; [done|].
    by apply truncate_same. }
  split; [exact Hfix|].
  destruct (ascii_fallback_name name max_len) as [|c r] eqn:Hr.
  - unfold ascii_fallback_name. simpl.
    unfold ascii_fallback_name in Hr.
    destruct (clean_ascii name) as [|c0 s0] eqn:Hc.
    + exact Hr.
    + pose proof (truncate_length max_len (py "file") Hml) as Hlen.
      pose proof (truncate_length max_len (c0 :: s0) Hml) as Hlen'.
      rewrite Hr in Hlen'. simpl in Hlen'.
      assert (max_len = 0%Z \/ (1 <= max_len)%Z) as [-> | H1] by lia; [done|].
      by destruct (truncate_nonempty max_len (c0 :: s0) H1).
  - rewrite <- Hr. apply Hfix.
    + by rewrite Hr.
    + apply ascii_fallback_name_chars.
    + pose proof (truncate_length max_len
                    (match clean_ascii name with [] => py "file" | _ => clean_ascii name end)
                    Hml) as Hlen.
      unfold ascii_fallback_name. lia.
Qed.

(** X4: on a name that the Unicode sanitizer produced, the ASCII fallback
    does no more than drop the characters outside ASCII, put "file" when
    nothing is left, and cut at its cap. *)
Theorem fallback_of_sanitized_name_drops_non_ascii (name : str) (max_len fallback_len : Z) :
  let u := safe2 name max_len in
  ascii_fallback_name u fallback_len
  = truncate fallback_len
      (match List.filter is_ascii u with
       | [] => py "file"
       | kept => kept
       end).
Proof.
  intros u. unfold ascii_fallback_name.
  assert (Hc : clean_ascii u = List.filter is_ascii u).
  { unfold clean_ascii, ascii_only.
    assert (Hk : Forall (fun c => ascii_name_char c = true) (List.filter is_ascii u)).
    { apply Forall_forall. intros c Hin%list_elem_of_In%filter_In.
      destruct Hin as [Hin Ha]. apply keep_char_ascii; [|done].
      pose proof (safe_filename_unicode_keep unquote uni_alnum name max_len) as Hall.
      apply (proj1 (Forall_forall _ _) Hall). by apply list_elem_of_In. }
    rewrite (filter_same ascii_name_char) by done.
    apply strip_same. eapply Forall_impl; [exact Hk|].
    apply ascii_name_char_not_space. }
  rewrite Hc. by destruct (List.filter is_ascii u).
Qed.

(** X5: for a cap that is not negative, the ASCII fallback never exceeds it --
    so with cap 0 it returns the empty string -- while the Unicode
    sanitizer returns at most the larger of the cap and the 7 characters
    of "unnamed", and with cap 0 turns every non-empty input into
    "file". *)
Theorem sanitizer_lengths_for_any_cap (name : str) (max_len : Z) :
  (0 <= max_len)%Z ->
  (length (ascii_fallback_name name max_len) <= Z.to_nat max_len)%nat
  ∧ (length (safe2 name max_len) <= Nat.max (Z.to_nat max_len) 7)%nat
  ∧ (max_len = 0%Z -> ascii_fallback_name name max_len = []
                      ∧ (name ≠ [] -> safe2 name max_len = py "file")).
Proof.
  intros Hml. split; [|split].
  - unfold ascii_fallback_name. by apply truncate_length.
  - unfold safe_filename_unicode. destruct name as [|c name]; [simpl; lia|].
    pose proof (truncate_length max_len (clean_unicode unquote uni_alnum (c :: name)) Hml).
    destruct (truncate max_len _); simpl in *; lia.
  - intros ->. split.
    + pose proof (truncate_length 0
                    (match clean_ascii name with [] => py "file" | _ => clean_ascii name end)
                    Hml) as Hlen.
      unfold ascii_fallback_name.
      destruct (truncate 0 _); [done | simpl in Hlen; lia].
    + intros Hne. unfold safe_filename_unicode. destruct name as [|c name]; [done|].
      pose proof (truncate_length 0 (clean_unicode unquote uni_alnum (c :: name)) Hml) as Hlen.
      destruct (truncate 0 _); [done | simpl in Hlen; lia].
Qed.

(** [unquote] returns a string without a percent sign as it is, and the
    Unicode database puts no whitespace among the alphanumeric
    characters. *)
Hypothesis unquote_plain2 : forall s, PERCENT ∉ s -> unquote s = s.
Hypothesis alnum_not_space2 :
  forall c, is_ascii c = false -> uni_alnum c = true -> is_space c = false.

(** X2: every character of a sanitized name is a word character, a hyphen, a
    dot or an underscore, so the name has no whitespace and no percent
    sign, whatever the cap. *)
Theorem sanitized_name_alphabet (name : str) (max_len : Z) (c : codepoint) :
  c ∈ safe2 name max_len ->
  (is_word uni_alnum c = true ∨ c = HYPHEN ∨ c = DOT ∨ c = UNDERSCORE)
  ∧ is_space c = false ∧ c ≠ PERCENT.
Proof.
  intros Hin.
  pose proof (safe_filename_unicode_keep unquote uni_alnum name max_len) as Hall.
  pose proof (proj1 (Forall_forall _ _) Hall c Hin) as Hk. simpl in Hk.
  destruct (keep_char_plain uni_alnum alnum_not_space2 c Hk) as (Hs & _ & _ & Hp).
  split; [|done]. revert Hk. unfold keep_char.
  destruct (is_word uni_alnum c); [by left|]. simpl.
  destruct (N.eqb_spec c HYPHEN); [by right; left|].
  destruct (N.eqb_spec c DOT); [by right; right; left|].
  destruct (N.eqb_spec c UNDERSCORE); [by right; right; right | done].
Qed.

(** X1: a non-empty name made of word characters of any script, hyphens,
    dots and underscores, no longer than the cap, is returned as it is:
    titles in Cyrillic or any other script are kept. *)
Theorem clean_name_is_kept (name : str) (max_len : Z) :
  name ≠ [] ->
  Forall (fun c => is_word uni_alnum c = true ∨ c = HYPHEN ∨ c = DOT ∨ c = UNDERSCORE) name ->
  (Z.of_nat (length name) <= max_len)%Z ->
  safe2 name max_len = name.
Proof.
  intros Hne Hk Hlen.
  apply (safe_filename_unicode_fixpoint unquote uni_alnum unquote_plain2 alnum_not_space2);
    [done| |done].
  eapply Forall_impl; [exact Hk|]. intros c Hc. unfold keep_char.
  destruct Hc as [-> | [-> | [-> | ->]]]; [done | | |];
    by rewrite ?orb_true_r.
Qed.

End SanitizerMore.

(** ** Extension resolver *)

(** [rfind] returns a position at or after every occurrence. *)
Lemma rfind_from_last c s : forall i acc k,
  s !! k = Some c -> (i + Z.of_nat k <= rfind_from i acc c s)%Z.
Proof.
  induction s as [|x s IH]; intros i acc k Hk; [done|]. simpl.
  destruct k as [|k]; simpl in Hk.
  - injection Hk as ->. rewrite N.eqb_refl.
    destruct (rfind_from_spec c s (i + 1) i) as [-> | [? _]]; lia.
  - specialize (IH (i + 1)%Z (if x =? c then i else acc) k Hk). lia.
Qed.

(** The extension [splitext] returns has no path separator. *)
Lemma splitext_ext_flat p : SLASH ∉ splitext_ext p.
Proof.
  unfold splitext_ext.
  destruct (Z.ltb_spec (rfind SLASH p) (rfind DOT p)) as [Hlt|];
    [|apply not_elem_of_nil].
  destruct (existsb _ _); [|apply not_elem_of_nil].
  intros (j & Hj)%list_elem_of_lookup_1. rewrite lookup_drop in Hj.
  pose proof (rfind_from_last SLASH p 0 (-1) _ Hj) as Hle.
  unfold rfind in *.
  assert (0 <= rfind_from 0 (-1) DOT p)%Z.
  { destruct (rfind_from_spec SLASH p 0 (-1)) as [Heq | [? _]]; lia. }
  lia.
Qed.

(** Every extension of the table is 4 or 5 characters long and has no
    path separator. *)
Lemma content_type_ext_short k e :
  dict_get CONTENT_TYPE_EXT k = Some e -> (length e <= 5)%nat ∧ (SLASH ∉ e).
Proof.
  unfold CONTENT_TYPE_EXT. simpl.
  repeat (case_decide;
          [intros [= <-]; split;
             [vm_compute; lia
             |intros Hin%list_elem_of_In; vm_compute in Hin; intuition discriminate]|]).
  done.
Qed.

Section ResolverMore.

Variable urlparse : str -> option parsed_url.
Variable lower : str -> str.
Variable guess_type : str -> option str.

(** Lowercasing does not bring a path separator into a string. *)
Hypothesis lower_flat : forall s, SLASH ∉ s -> SLASH ∉ lower s.

Lemma choose_extension_bounds (header : option str) (url : str) :
  (length (choose_extension urlparse lower guess_type header url) <= 5)%nat
  ∧ (SLASH ∉ choose_extension urlparse lower guess_type header url).
Proof.
  unfold choose_extension.
  destruct (dict_get CONTENT_TYPE_EXT _) as [e|] eqn:Hct.
  { by eapply content_type_ext_short. }
  destruct (negb _ && _) eqn:Hext.
  { apply andb_true_iff in Hext as [_ Hlen%Nat.leb_le]. split; [done|].
    unfold ext_from_url. destruct (urlparse url) as [p|]; [|apply not_elem_of_nil].
    apply lower_flat, splitext_ext_flat. }
  assert (Hpng : (length (py ".png") <= 5)%nat ∧ (SLASH ∉ py ".png")).
  { split; [vm_compute; lia|]. intros H%list_elem_of_In. vm_compute in H.
    intuition discriminate. }
  destruct (guess_type url) as [[|c g]|]; [done| |done].
  destruct (dict_get CONTENT_TYPE_EXT (c :: g)) as [e|] eqn:Hg; [|done].
  by eapply content_type_ext_short.
Qed.

(** X6: the chosen extension is at most 5 characters long and has no path
    separator, whatever the header and the URL are: appended to a name
    it cannot lead into another directory. *)
Theorem chosen_extension_is_short_and_flat (header : option str) (url : str) :
  let r := choose_extension urlparse lower guess_type header url in
  (length r <= 5)%nat ∧ (SLASH ∉ r).
Proof. intros r. apply choose_extension_bounds. Qed.

End ResolverMore.

(** ** Collision-safe writer *)

Lemma only_adds_inside_refl outdir w : only_adds_inside outdir w w.
Proof. by split. Qed.

Lemma only_adds_inside_trans outdir w1 w2 w3 :
  only_adds_inside outdir w1 w2 -> only_adds_inside outdir w2 w3 ->
  only_adds_inside outdir w1 w3.
Proof.
  intros [Hk1 Ho1] [Hk2 Ho2]. split.
  - intros q Hq. rewrite Hk2, Hk1; [done..|]. by rewrite Hk1.
  - intros q Hq. by rewrite Ho2, Ho1.
Qed.

Lemma dec_digits n : Forall (fun c => in_range 48 57 c = true) (dec n).
Proof.
  unfold dec. generalize (Nat.to_uint n). intros d.
  induction d; simpl; [constructor|constructor; [by vm_compute | done]..].
Qed.

Lemma candidate_flat base ext k :
  SLASH ∉ base -> SLASH ∉ ext -> SLASH ∉ candidate base ext k.
Proof.
  intros Hb He. destruct k as [|k]; simpl.
  - rewrite elem_of_app. tauto.
  - rewrite elem_of_app, elem_of_cons, elem_of_app.
    intros [? | [? | [Hd | ?]]]; [done | done | | done].
    pose proof (proj1 (Forall_forall _ _) (dec_digits (S k)) _ Hd) as H.
    revert H. by vm_compute.
Qed.

Lemma free_name_candidate fs outdir base ext f :
  free_name fs outdir base ext = Ret f ->
  (exists k, f = candidate base ext k) ∧ fs !! joinpath outdir f = None.
Proof.
  intros Hf.
  destruct (free_name_first_free fs outdir base ext) as (k & Hk & Hnone & _).
  rewrite Hf in Hk. injection Hk as ->. eauto.
Qed.


Lemma ascii_fallback_name_flat name max_len :
  SLASH ∉ ascii_fallback_name name max_len.
Proof.
  eapply Forall_not_elem; [apply ascii_fallback_name_chars|].
  by vm_compute.
Qed.

Section WriterMore.

Variable open_error : str -> option exn.
Variable resolve : str -> str.

#[local] Abbreviation write_file2 := (write_file open_error).
#[local] Abbreviation write_icon2 := (write_icon open_error resolve).




(** What a call of the writer does to the world, for a base name and an
    extension without path separator: it opens one file or two, each of
    the form [outdir/name]; it changes no file that existed and no other
    path; and a success names a file that did not exist before and exists
    after. *)
Lemma write_icon_effect w outdir base ext events r w' :
  SLASH ∉ base -> SLASH ∉ ext ->
  write_icon2 w outdir base ext events = (r, w') ->
  only_adds_inside outdir w w'
  ∧ requests w' = requests w
  ∧ (exists new, opens w' = new ++ opens w
       ∧ Forall (directly_inside outdir) new
       ∧ (1 <= length new <= 2)%nat)
  ∧ (forall info, r = Ret (true, info) ->
       exists p, info = resolve p ∧ directly_inside outdir p
                 ∧ files w !! p = None ∧ is_Some (files w' !! p)).
Proof.
  intros Hb He. unfold write_icon.
  destruct (free_name (files w) outdir base ext) as [f| |] eqn:Hf;
    [|by destruct (free_name_first_free (files w) outdir base ext) as (? & ? & _);
       congruence..].
  destruct (free_name_candidate _ _ _ _ _ Hf) as [[k ->] Hnone].
  set (p1 := joinpath outdir (candidate base ext k)) in *.
  assert (Hin1 : directly_inside outdir p1).
  { eexists. split; [done|]. by apply candidate_flat. }
  destruct (write_file2 p1 events w) as [[r1 rest] w1] eqn:Hw1.
  destruct (write_file_spec _ _ _ _ _ _ _ Hw1) as (Hoth1 & Hcr1 & Hop1 & Hrq1).
  assert (Hgrow1 : only_adds_inside outdir w w1).
  { split.
    - by eapply write_file_fresh.
    - intros q Hq. apply Hoth1. by intros ->. }
  destruct r1 as [[m|m]|].
  - unfold write_fallback.
    set (ab := ascii_fallback_name base MAX_LEN_ASCII).
    destruct (free_name (files w1) outdir ab ext) as [f2| |] eqn:Hf2;
      [|by destruct (free_name_first_free (files w1) outdir ab ext) as (? & ? & _);
         congruence..].
    destruct (free_name_candidate _ _ _ _ _ Hf2) as [[k2 ->] Hnone2].
    set (p2 := joinpath outdir (candidate ab ext k2)) in *.
    assert (Hin2 : directly_inside outdir p2).
    { eexists. split; [done|]. apply candidate_flat; [|done].
      apply ascii_fallback_name_flat. }
    destruct (write_file2 p2 rest w1) as [[r2 rest2] w2] eqn:Hw2.
    destruct (write_file_spec _ _ _ _ _ _ _ Hw2) as (Hoth2 & Hcr2 & Hop2 & Hrq2).
    assert (Hgrow2 : only_adds_inside outdir w1 w2).
    { split.
      - by eapply write_file_fresh.
      - intros q Hq. apply Hoth2. by intros ->. }
    intros Hr. assert (w' = w2) as -> by (by destruct r2; injection Hr).
    split; [by eapply only_adds_inside_trans|].
    split; [congruence|]. split.
    + exists [p2; p1]. rewrite Hop2, Hop1. split; [done|].
      split; [by repeat constructor | simpl; lia].
    + intros info ->. destruct r2; [done|]. injection Hr as <-.
      exists p2. split; [done|]. split; [done|]. split; [|by apply Hcr2].
      destruct (files w !! p2) eqn:Hp2; [|done].
      destruct Hgrow1 as [Hk1 _]. rewrite <- Hk1, Hnone2 in Hp2; [done|].
      by rewrite Hp2.
  - intros [= <- <-]. split; [done|]. split; [done|]. split; [|done].
    exists [p1]. rewrite Hop1. split; [done|]. split; [by repeat constructor | simpl; lia].
  - intros [= <- <-]. split; [done|]. split; [done|]. split.
    + exists [p1]. rewrite Hop1. split; [done|].
      split; [by repeat constructor | simpl; lia].
    + intros info [= <-]. exists p1. split; [done|]. split; [done|].
      split; [done | by apply Hcr1].
Qed.

End WriterMore.

(** ** Fetch task *)

Lemma success_infos_cons (e : entry) (es : list entry) :
  success_infos (e :: es)
  = if e.1.2 then e.2 :: success_infos es else success_infos es.
Proof. unfold success_infos. simpl. by destruct (e.1.2). Qed.

Lemma success_infos_elem i info (results : list entry) :
  (i, true, info) ∈ results -> info ∈ success_infos results.
Proof.
  intros Hin. unfold success_infos. apply list_elem_of_omap.
  by exists (i, true, info).
Qed.

Section FetchTaskMore.

Variable unquote : str -> str.
Variable uni_alnum : codepoint -> bool.
Variable urlparse : str -> option parsed_url.
Variable lower : str -> str.
Variable guess_type : str -> option str.
Variable open_error : str -> option exn.
Variable http_get : str -> response + exn.
Variable resolve : str -> str.

#[local] Abbreviation fetch2 :=
  (download_icon unquote uni_alnum urlparse lower guess_type open_error
     http_get resolve).

Lemma safe_filename_unicode_flat name max_len :
  SLASH ∉ safe_filename_unicode unquote uni_alnum name max_len.
Proof.
  eapply Forall_not_elem; [apply safe_filename_unicode_keep|]. simpl.
  intros [H | [Ha _]]%keep_char_cases.
  - by destruct (ascii_name_char_plain _ H) as (? & _).
  - by vm_compute in Ha.
Qed.

(** Lowercasing does not bring a path separator into a string. *)
Hypothesis lower_flat2 : forall s, SLASH ∉ s -> SLASH ∉ lower s.

(** What a fetch task does to the world. *)
Lemma download_icon_effect item outdir w r w' :
  fetch2 item outdir w = (r, w') ->
  only_adds_inside outdir w w'
  ∧ (exists new, opens w' = new ++ opens w
       ∧ Forall (directly_inside outdir) new ∧ (length new <= 2)%nat)
  ∧ (exists sent, requests w' = sent ++ requests w ∧ (length sent <= 1)%nat)
  ∧ (forall info, r = Ret (true, info) ->
       exists p, info = resolve p ∧ directly_inside outdir p
                 ∧ files w !! p = None ∧ is_Some (files w' !! p))
  ∧ ((files w' = files w ∧ opens w' = opens w)
     ∨ exists u resp, get_text item (py "icon") = Ret u
                      ∧ http_get u = inl resp ∧ status_code resp = 200%Z).
Proof.
  assert (Hidle : forall r0 w0, files w0 = files w -> opens w0 = opens w ->
            (exists sent, requests w0 = sent ++ requests w ∧ (length sent <= 1)%nat) ->
            (forall info, r0 ≠ Ret (true, info)) ->
            only_adds_inside outdir w w0
            ∧ (exists new, opens w0 = new ++ opens w
                 ∧ Forall (directly_inside outdir) new ∧ (length new <= 2)%nat)
            ∧ (exists sent, requests w0 = sent ++ requests w ∧ (length sent <= 1)%nat)
            ∧ (forall info, r0 = Ret (true, info) ->
                 exists p, info = resolve p ∧ directly_inside outdir p
                           ∧ files w !! p = None ∧ is_Some (files w0 !! p))
            ∧ ((files w0 = files w ∧ opens w0 = opens w)
               ∨ exists u resp, get_text item (py "icon") = Ret u
                                ∧ http_get u = inl resp ∧ status_code resp = 200%Z)).
  { intros r0 w0 Hf Ho Hs Hr. split; [split; intros q _; by rewrite Hf|].
    split; [exists []; rewrite Ho; split; [done|]; split; [constructor | simpl; lia]|].
    split; [done|].
    split; [intros info Hi; by destruct (Hr info)|].
    by left. }
  assert (Hnone : exists sent : list str,
            requests w = sent ++ requests w ∧ (length sent <= 1)%nat).
  { exists []. simpl. split; [done | lia]. }
  unfold download_icon.
  destruct (get_text item (py "title")) as [title|e|] eqn:Ht;
    [|intros [= <- <-]; by apply Hidle..].
  destruct (get_text item (py "url")) as [url|e|] eqn:Hu;
    [|intros [= <- <-]; by apply Hidle..].
  destruct (get_text item (py "icon")) as [icon_url|e|] eqn:Hi;
    [|intros [= <- <-]; by apply Hidle..].
  destruct (bool_decide (icon_url = [])); [intros [= <- <-]; by apply Hidle|].
  destruct (base_name_of urlparse title url) as [base|e|] eqn:Hb;
    [|intros [= <- <-]; by apply Hidle..].
  assert (Hone : exists sent : list str,
            requests (log_request icon_url w) = sent ++ requests w
            ∧ (length sent <= 1)%nat).
  { exists [icon_url]. simpl. split; [done | lia]. }
  destruct (http_get icon_url) as [resp|e] eqn:Hget;
    [|intros [= <- <-]; by apply Hidle].
  destruct (Z.eqb_spec (status_code resp) 200) as [H200|]; simpl;
    [|intros [= <- <-]; by apply Hidle].
  intros Hw.
  destruct (write_icon_effect open_error resolve (log_request icon_url w) outdir _ _ _ _ _
              (safe_filename_unicode_flat base MAX_LEN_UNICODE)
              (proj2 (choose_extension_bounds urlparse lower guess_type
                        lower_flat2 (content_type resp) icon_url)) Hw)
    as (Hgrow & Hreq & (new & Hnew & Hin & Hlen) & Hsucc).
  split; [exact Hgrow|]. split; [exists new; split; [done|]; split; [done | lia]|].
  split; [exists [icon_url]; rewrite Hreq; simpl; split; [done | lia]|].
  split; [exact Hsucc|]. right. by exists icon_url, resp.
Qed.

(** X9: a fetch task opens or changes a file only after the server answered
    its request with status 200: when no answer with that status can
    come, the files and the log of opened paths are left as they were. *)
Theorem download_writes_only_after_status_200 (item : json) (outdir : str) (w : world) :
  (forall u resp, get_text item (py "icon") = Ret u ->
     http_get u = inl resp -> status_code resp ≠ 200%Z) ->
  files (fetch2 item outdir w).2 = files w
  ∧ opens (fetch2 item outdir w).2 = opens w.
Proof.
  intros Hno. destruct (fetch2 item outdir w) as [r w'] eqn:Hd. simpl.
  destruct (download_icon_effect _ _ _ _ _ Hd)
    as (_ & _ & _ & _ & [Hsame | (u & resp & ? & ? & ?)]); [done|].
  by edestruct Hno.
Qed.

(** X10: a fetch task that reports success names the resolved path of a file
    [outdir/name], [name] without separator, that did not exist before
    the task and exists after it; and whatever the outcome, the task
    leaves every file that existed, and every path not of that form, as it
    was. *)
Theorem download_success_is_a_new_file
    (item : json) (outdir : str) (w w' : world) (r : res task_result) :
  fetch2 item outdir w = (r, w') ->
  only_adds_inside outdir w w'
  ∧ forall info, r = Ret (true, info) ->
      exists p, info = resolve p ∧ directly_inside outdir p
                ∧ files w !! p = None ∧ is_Some (files w' !! p).
Proof.
  intros Hd. destruct (download_icon_effect _ _ _ _ _ Hd) as (? & _ & _ & ? & _).
  done.
Qed.

End FetchTaskMore.

(** ** Pipeline coordinator *)

Lemma tally_from (results : list entry) : forall s f,
  let t := fold_left (fun '(success_count, fail_count) '(_, ok, _) =>
               if ok : bool then (S success_count, fail_count)
               else (success_count, S fail_count)) results (s, f) in
  t.1 = (s + length (success_infos results))%nat
  ∧ (t.1 + t.2 = s + f + length results)%nat.
Proof.
  induction results as [|[[i ok] info] results IH]; intros s f.
  { simpl. split; lia. }
  rewrite success_infos_cons. simpl. destruct ok; simpl.
  - destruct (IH (S s) f) as [H1 H2]. simpl in H1, H2. split; lia.
  - destruct (IH s (S f)) as [H1 H2]. simpl in H1, H2. split; lia.
Qed.

(** A record that is not an object, or whose icon is a truthy value
    other than a string, cannot be read by the first loop. *)
Lemma malformed_not_readable item :
  (¬ is_obj item
   ∨ exists o v, item = JObj o ∧ dict_get o (py "icon") = Some v
                 ∧ truthy v = true ∧ forall s, v ≠ JStr s) ->
  exists e, get_text item (py "icon") = Exc e.
Proof.
  intros [Hno | (o & v & -> & Hv & Ht & Hs)].
  - destruct item; try (by eexists). destruct Hno. by eexists.
  - simpl. rewrite Hv, Ht. destruct v; try (by eexists). by destruct (Hs s).
Qed.

Lemma prepare_raises data : forall i k item e,
  data !! k = Some item -> get_text item (py "icon") = Exc e ->
  exists e', prepare i data = Exc e'.
Proof.
  induction data as [|x data IH]; intros i k item e Hk He; [done|]. simpl.
  destruct (get_text x (py "icon")) as [u|e0|] eqn:Hx;
    [|by eexists|by destruct (get_text_ends _ _ Hx)].
  destruct k as [|k]; simpl in Hk; [injection Hk as ->; congruence|].
  destruct (IH (S i) k item e Hk He) as [e' ->]. simpl. by eexists.
Qed.

Section CoordinatorMore.

Variable unquote : str -> str.
Variable uni_alnum : codepoint -> bool.
Variable urlparse : str -> option parsed_url.
Variable lower : str -> str.
Variable guess_type : str -> option str.
Variable open_error : str -> option exn.
Variable http_get : str -> response + exn.
Variable resolve : str -> str.
Variable as_completed : list (nat * json) -> list (nat * json).
Variable relative_to : str -> str -> option str.

#[local] Abbreviation collect2 :=
  (collect unquote uni_alnum urlparse lower guess_type open_error
     http_get resolve).
#[local] Abbreviation run2 :=
  (process_all unquote uni_alnum urlparse lower guess_type open_error
     http_get resolve as_completed relative_to).

(** X11: a record that is not an object, or whose icon is a truthy value
    other than a string (a number, [true], a non-empty list or object),
    makes the run raise in its first loop, before any task is
    submitted. *)
Theorem run_raises_on_malformed_record
    (data : list json) (parent outdir : str) (write_relative : bool) (w : world)
    (i : nat) (item : json) :
  data !! i = Some item ->
  (¬ is_obj item
   ∨ exists o v, item = JObj o ∧ dict_get o (py "icon") = Some v
                 ∧ truthy v = true ∧ forall s, v ≠ JStr s) ->
  exists e, prepare 0 data = Exc e
            ∧ run2 data parent outdir write_relative w = Exc e.
Proof.
  intros Hi [e He]%malformed_not_readable.
  destruct (prepare_raises data 0 i item e Hi He) as [e' Hp].
  exists e'. split; [done|]. unfold process_all. by rewrite Hp.
Qed.

(** Lowercasing does not bring a path separator into a string. *)
Hypothesis lower_flat3 : forall s, SLASH ∉ s -> SLASH ∉ lower s.

(** What collecting the tasks does to the world. *)
Lemma collect_effect outdir order : forall w es w',
  collect2 order outdir w = (Ret es, w') ->
  only_adds_inside outdir w w'
  ∧ (exists new, opens w' = new ++ opens w ∧ Forall (directly_inside outdir) new)
  ∧ (exists sent, requests w' = sent ++ requests w
                  ∧ (length sent <= length order)%nat)
  ∧ Forall (fun info => exists p, info = resolve p ∧ directly_inside outdir p
                                  ∧ files w !! p = None ∧ is_Some (files w' !! p))
      (success_infos es)
  ∧ ((forall p q, resolve p = resolve q -> p = q) -> NoDup (success_infos es)).
Proof.
  induction order as [|[idx item] order IH]; intros w es w'; simpl.
  { intros [= <- <-]. split; [apply only_adds_inside_refl|].
    split; [by exists []|]. split; [by exists []|].
    split; [constructor|]. intros _. constructor. }
  destruct (download_icon _ _ _ _ _ _ _ _ item outdir w) as [r w1] eqn:Hd.
  destruct (download_icon_effect _ _ _ _ _ _ _ _ lower_flat3 _ _ _ _ _ Hd)
    as (Hgrow1 & (new1 & Hnew1 & Hin1 & _) & (sent1 & Hsent1 & Hlen1) & Hsucc1 & _).
  destruct (record_outcome idx r) as [e| |] eqn:Hrec; [|done..].
  destruct (collect2 order outdir w1) as [r' w2] eqn:Hc.
  destruct r' as [es'| |]; simpl; [|done..].
  intros [= <- <-].
  destruct (IH _ _ _ Hc)
    as (Hgrow2 & (new2 & Hnew2 & Hin2) & (sent2 & Hsent2 & Hlen2) & Hsucc2 & Hnd2).
  assert (Htail : Forall (fun info => exists p, info = resolve p
                    ∧ directly_inside outdir p
                    ∧ files w !! p = None ∧ is_Some (files w2 !! p))
                    (success_infos es')).
  { eapply Forall_impl; [exact Hsucc2|]. intros info (p & -> & Hp & Hn & Hs).
    exists p. split; [done|]. split; [done|]. split; [|done].
    destruct (files w !! p) eqn:Hwp; [|done].
    destruct Hgrow1 as [Hk _]. rewrite <- Hk, Hn in Hwp; [done|]. by rewrite Hwp. }
  split; [by eapply only_adds_inside_trans|].
  split.
  { exists (new2 ++ new1). rewrite Hnew2, Hnew1, app_assoc. split; [done|].
    apply Forall_app. split; [done|]. done. }
  split.
  { exists (sent2 ++ sent1). rewrite Hsent2, Hsent1, app_assoc. split; [done|].
    rewrite length_app. simpl. lia. }
  rewrite success_infos_cons.
  destruct r as [[ok info]|x|]; simpl in Hrec; [| |done];
    injection Hrec as <-; simpl; [destruct ok|]; try (split; [exact Htail | exact Hnd2]).
  destruct (Hsucc1 info eq_refl) as (p & -> & Hp & Hn & Hs).
  split.
  - constructor; [|exact Htail]. exists p. split; [done|]. split; [done|].
    split; [done|]. destruct Hgrow2 as [Hk _]. by rewrite Hk.
  - intros Hinj. constructor; [|by apply Hnd2].
    intros Hin. apply (proj1 (Forall_forall _ _) Hsucc2) in Hin
      as (q & Hq%Hinj & _ & Hnq & _).
    subst q. rewrite Hnq in Hs. by destruct Hs.
Qed.

(** The order in which the futures complete is some order of the tasks
    submitted. *)
Hypothesis as_completed_perm3 : forall tasks, as_completed tasks ≡ₚ tasks.

(** The world after a run that ended, and the successes of the run. *)
Lemma run_effect data parent outdir write_relative w data' results w' :
  run2 data parent outdir write_relative w = Ret (data', results, w') ->
  exists results0 tasks es,
    prepare 0 data = Ret (results0, tasks)
    ∧ results = results0 ++ es
    ∧ success_infos results = success_infos es
    ∧ length results = length data
    ∧ exists order, order ≡ₚ tasks ∧ collect2 order outdir w = (Ret es, w').
Proof.
  intros Hrun.
  destruct (run_inv _ _ _ _ _ _ _ _ _ _ as_completed_perm3 _ _ _ _ _ _ _ _ Hrun)
    as (results0 & tasks & order & es & Hp & Hord & Hc & -> & _ & Hall & _).
  exists results0, tasks, es. split; [done|]. split; [done|].
  split; [|split; [|by exists order]].
  - destruct (prepare_spec _ _ _ _ Hp) as (Hrs & _).
    unfold success_infos. rewrite omap_app.
    assert (omap (fun e : entry => if e.1.2 then Some e.2 else None) results0 = []) as ->;
      [|done].
    clear -Hrs. induction Hrs as [|e rs (k & it & -> & _) _ IH]; [done|].
    simpl. exact IH.
  - apply Permutation_length in Hall.
    by rewrite length_fmap, length_seq in Hall.
Qed.

(** X12: the fetch tasks of a run, taking effect one after another in any
    order, change no file that existed before the first of them, and
    every path they open or create is the output directory followed by
    one name without path separator.  The backup copy of the record file
    and its replacement at the end of the run are other steps, which this
    statement does not cover. *)
Theorem fetch_tasks_only_add_files_inside_outdir outdir order w es w' :
  collect2 order outdir w = (Ret es, w') ->
  only_adds_inside outdir w w'
  ∧ exists new, opens w' = new ++ opens w ∧ Forall (directly_inside outdir) new.
Proof.
  intros Hc. by destruct (collect_effect _ _ _ _ _ Hc) as (? & ? & _).
Qed.

(** X13: when the fetch tasks take effect one after another, as they do
    with a pool of one worker, and resolving paths does not merge two of
    them, the successes name pairwise different files, each of the form
    [outdir/name], absent before the first task and present after the
    last: no two records are pointed at the same icon file. *)
Theorem sequential_tasks_name_distinct_new_files outdir order w es w' :
  (forall p q, resolve p = resolve q -> p = q) ->
  collect2 order outdir w = (Ret es, w') ->
  NoDup (success_infos es)
  ∧ forall i info, (i, true, info) ∈ es ->
      exists p, info = resolve p ∧ directly_inside outdir p
                ∧ files w !! p = None ∧ is_Some (files w' !! p).
Proof.
  intros Hinj Hc.
  destruct (collect_effect _ _ _ _ _ Hc) as (_ & _ & _ & Hall & Hnd).
  split; [by apply Hnd|].
  intros i info Hin%success_infos_elem.
  by apply (proj1 (Forall_forall _ _) Hall).
Qed.

(** X14: a run calls [session.get] at most once per record that has an
    icon URL, so not at all when no record has one.  A call that follows
    redirects counts once, whatever number of HTTP requests it sends. *)
Theorem run_calls_get_at_most_once_per_task
    data parent outdir write_relative w data' results w' results0 tasks :
  prepare 0 data = Ret (results0, tasks) ->
  run2 data parent outdir write_relative w = Ret (data', results, w') ->
  exists sent, requests w' = sent ++ requests w
               ∧ (length sent <= length tasks)%nat
               ∧ (length tasks + length results0 = length data)%nat.
Proof.
  intros Hp (results0' & tasks' & es & Hp' & _ & _ & _ & order & Hord & Hc)%run_effect.
  rewrite Hp in Hp'. injection Hp' as <- <-.
  destruct (collect_effect _ _ _ _ _ Hc) as (_ & _ & (sent & Hsent & Hlen) & _).
  exists sent. split; [done|]. rewrite (Permutation_length Hord) in Hlen.
  split; [done|].
  destruct (prepare_spec _ _ _ _ Hp) as (_ & _ & Hperm & _).
  apply Permutation_length in Hperm.
  rewrite length_app, !length_fmap, length_seq in Hperm. lia.
Qed.

(** X15: the two counters printed at the end of a run add up to the number of
    records, and the first one counts the entries with a success. *)
Theorem tally_counts_every_record
    data parent outdir write_relative w data' results w' :
  run2 data parent outdir write_relative w = Ret (data', results, w') ->
  (tally results).1 = length (success_infos results)
  ∧ ((tally results).1 + (tally results).2 = length data)%nat.
Proof.
  intros (results0 & tasks & es & _ & _ & _ & Hlen & _)%run_effect.
  destruct (tally_from results 0 0) as [H1 H2]. unfold tally.
  simpl in H1, H2. split; [done | lia].
Qed.

(** X16: when no fetch succeeds, the collection handed to [json.dump] is the
    input collection itself. *)
Theorem run_without_success_returns_input
    data parent outdir write_relative w data' results w' :
  run2 data parent outdir write_relative w = Ret (data', results, w') ->
  success_infos results = [] ->
  data' = data.
Proof.
  intros Hrun Hnone.
  pose proof (run_length _ _ _ _ _ _ _ _ _ _ as_completed_perm3 _ _ _ _ _ _ _ _ Hrun)
    as Hlen.
  apply list_eq. intros i.
  destruct (decide (i < length data)%nat) as [Hi|Hi].
  - destruct (run_covers _ _ _ _ _ _ _ _ _ _ as_completed_perm3 _ _ _ _ _ _ _ _ i Hrun Hi)
      as (ok & info & Hin).
    destruct (run_entry _ _ _ _ _ _ _ _ _ _ as_completed_perm3 _ _ _ _ _ _ _ _ _ _ _ Hrun Hin)
      as (_ & _ & o & Ho & _ & Hno).
    destruct ok.
    + apply success_infos_elem in Hin. rewrite Hnone in Hin.
      by apply elem_of_nil in Hin.
    + by rewrite Ho, Hno.
  - rewrite !lookup_ge_None_2; [done | lia | lia].
Qed.

End CoordinatorMore.

(** ** The further properties at concrete inputs *)

Lemma lower_ascii_flat s : SLASH ∉ s -> SLASH ∉ lower_ascii s.
Proof.
  unfold lower_ascii. induction s as [|c s IH]; simpl; [done|].
  rewrite !not_elem_of_cons. intros [Hc Hs]. split; [|by apply IH].
  revert Hc. char_facts.
Qed.

Lemma resolve_id_inj p q : resolve_id p = resolve_id q -> p = q.
Proof. done. Qed.

Lemma ascii_fallback_name_fixes_plain_names_witness :
  (0 <= 80)%Z
  ∧ ascii_fallback_name (ascii_fallback_name (primer ++ py "a b/c") 80) 80
    = ascii_fallback_name (primer ++ py "a b/c") 80.
Proof.
  assert (H : (0 <= 80)%Z) by lia.
  split; [exact H|].
  exact (proj2 (ascii_fallback_name_fixes_plain_names (primer ++ py "a b/c") 80 H)).
Defined.

Lemma sanitizer_lengths_for_any_cap_witness :
  (0 <= 3)%Z
  ∧ (length (ascii_fallback_name (py "abcdef") 3) <= Z.to_nat 3)%nat
  ∧ (length (safe_filename_unicode unquote_ascii cyrillic_alnum (py "  ") 3)
     <= Nat.max (Z.to_nat 3) 7)%nat.
Proof.
  assert (H : (0 <= 3)%Z) by lia.
  split; [exact H|].
  destruct (sanitizer_lengths_for_any_cap unquote_ascii cyrillic_alnum (py "abcdef") 3 H)
    as (Ha & _ & _).
  destruct (sanitizer_lengths_for_any_cap unquote_ascii cyrillic_alnum (py "  ") 3 H)
    as (_ & Hu & _).
  split; [exact Ha | exact Hu].
Defined.

Lemma sanitized_name_alphabet_witness :
  UNDERSCORE ∈ safe_filename_unicode unquote_ascii cyrillic_alnum (py "a b") 120
  ∧ is_space UNDERSCORE = false ∧ UNDERSCORE ≠ PERCENT.
Proof.
  assert (Hin : UNDERSCORE
                ∈ safe_filename_unicode unquote_ascii cyrillic_alnum (py "a b") 120).
  { apply list_elem_of_In. vm_compute. tauto. }
  split; [exact Hin|].
  exact (proj2 (sanitized_name_alphabet unquote_ascii cyrillic_alnum
                  cyrillic_not_space (py "a b") 120 UNDERSCORE Hin)).
Defined.

Lemma clean_name_is_kept_witness :
  safe_filename_unicode unquote_ascii cyrillic_alnum primer 120 = primer.
Proof.
  apply (clean_name_is_kept unquote_ascii cyrillic_alnum unquote_ascii_plain
           cyrillic_not_space primer 120).
  - discriminate.
  - repeat constructor; left; vm_compute; reflexivity.
  - vm_compute. discriminate.
Defined.

Lemma chosen_extension_is_short_and_flat_witness :
  let r := choose_extension urlparse_simple lower_ascii guess_type_none
             (Some (py "text/html"))
             (py "http://example.com/a/b/favicon.JPEG") in
  (length r <= 5)%nat ∧ (SLASH ∉ r).
Proof.
  exact (chosen_extension_is_short_and_flat urlparse_simple lower_ascii
           guess_type_none lower_ascii_flat (Some (py "text/html"))
           (py "http://example.com/a/b/favicon.JPEG")).
Defined.



Lemma download_writes_only_after_status_200_witness :
  let item := bookmark "Example" "http://example.com" "http://example.com/favicon.ico" in
  files (sample_fetch not_found_server any_name_fs item).2 = files empty_world
  ∧ opens (sample_fetch not_found_server any_name_fs item).2 = opens empty_world.
Proof.
  intros item.
  apply (download_writes_only_after_status_200 unquote_ascii cyrillic_alnum
           urlparse_simple lower_ascii guess_type_none any_name_fs not_found_server
           resolve_id lower_ascii_flat item (py "/home/icons") empty_world).
  intros u resp _ [= <-]. simpl. discriminate.
Defined.

Lemma download_success_is_a_new_file_witness :
  let item := bookmark "Example" "http://example.com" "http://example.com/favicon.ico" in
  exists info w',
    sample_fetch icon_server any_name_fs item = (Ret (true, info), w')
    ∧ only_adds_inside (py "/home/icons") empty_world w'
    ∧ exists p, info = resolve_id p ∧ directly_inside (py "/home/icons") p
                ∧ files empty_world !! p = None ∧ is_Some (files w' !! p).
Proof.
  intros item.
  destruct (sample_fetch icon_server any_name_fs item) as [r w'] eqn:Hd.
  assert (Hr : r = Ret (true, py "/home/icons/Example.ico")).
  { vm_compute in Hd. by injection Hd as <- _. }
  subst r.
  destruct (download_success_is_a_new_file unquote_ascii cyrillic_alnum
              urlparse_simple lower_ascii guess_type_none any_name_fs icon_server
              resolve_id lower_ascii_flat item (py "/home/icons") empty_world w' _ Hd)
    as [Hgrow Hnew].
  exists (py "/home/icons/Example.ico"), w'. split; [reflexivity|].
  split; [exact Hgrow|]. exact (Hnew _ eq_refl).
Defined.

Lemma run_raises_on_malformed_record_witness :
  malformed_data !! 1%nat
    = Some (JObj [(py "title", JStr (py "x")); (py "icon", JNum 5)])
  ∧ exists e, prepare 0 malformed_data = Exc e
              ∧ sample_run icon_server any_name_fs malformed_data = Exc e.
Proof.
  assert (Hi : malformed_data !! 1%nat
               = Some (JObj [(py "title", JStr (py "x")); (py "icon", JNum 5)]))
    by reflexivity.
  split; [exact Hi|].
  apply (run_raises_on_malformed_record unquote_ascii cyrillic_alnum urlparse_simple
           lower_ascii guess_type_none any_name_fs icon_server resolve_id
           (@rev _) relative_to_prefix malformed_data (py "/home") (py "/home/icons")
           true empty_world 1 _ Hi).
  right. eexists _, (JNum 5). split; [reflexivity|].
  split; [vm_compute; reflexivity|]. split; [reflexivity | discriminate].
Defined.

Lemma fetch_tasks_only_add_files_inside_outdir_witness :
  exists es w',
    sample_collect (rev sample_tasks) = (Ret es, w')
    ∧ only_adds_inside (py "/home/icons") empty_world w'
    ∧ exists new, opens w' = new ++ opens empty_world
                  ∧ Forall (directly_inside (py "/home/icons")) new.
Proof.
  destruct (sample_collect (rev sample_tasks)) as [[es| |] w'] eqn:Hc;
    [|vm_compute in Hc; discriminate Hc..].
  exists es, w'. split; [reflexivity|].
  exact (fetch_tasks_only_add_files_inside_outdir _ _ _ _ _ _ _ _
           lower_ascii_flat _ _ _ _ _ Hc).
Defined.

Lemma sequential_tasks_name_distinct_new_files_witness :
  exists es w',
    sample_collect sample_tasks = (Ret es, w')
    ∧ NoDup (success_infos es)
    ∧ forall i info, (i, true, info) ∈ es ->
        exists p, info = resolve_id p ∧ directly_inside (py "/home/icons") p
                  ∧ files empty_world !! p = None ∧ is_Some (files w' !! p).
Proof.
  destruct (sample_collect sample_tasks) as [[es| |] w'] eqn:Hc;
    [|vm_compute in Hc; discriminate Hc..].
  exists es, w'. split; [reflexivity|].
  exact (sequential_tasks_name_distinct_new_files _ _ _ _ _ _ _ _
           lower_ascii_flat _ _ _ _ _ resolve_id_inj Hc).
Defined.

Lemma run_calls_get_at_most_once_per_task_witness :
  exists data' results w' results0 tasks sent,
    prepare 0 sample_data = Ret (results0, tasks)
    ∧ sample_run icon_server any_name_fs sample_data = Ret (data', results, w')
    ∧ requests w' = sent ++ requests empty_world
    ∧ (length sent <= length tasks)%nat.
Proof.
  destruct (sample_run icon_server any_name_fs sample_data)
    as [[[data' results] w']| |] eqn:Hrun;
    [|vm_compute in Hrun; discriminate Hrun..].
  destruct (prepare 0 sample_data) as [[results0 tasks]| |] eqn:Hp;
    [|vm_compute in Hp; discriminate Hp..].
  destruct (run_calls_get_at_most_once_per_task _ _ _ _ _ _ _ _ _ _
              lower_ascii_flat rev_completes _ _ _ _ _ _ _ _ _ _ Hp Hrun)
    as (sent & Hsent & Hlen & _).
  exists data', results, w', results0, tasks, sent.
  split; [reflexivity|]. split; [reflexivity|]. split; [exact Hsent | exact Hlen].
Defined.

Lemma tally_counts_every_record_witness :
  exists data' results w',
    sample_run icon_server any_name_fs sample_data = Ret (data', results, w')
    ∧ ((tally results).1 + (tally results).2 = length sample_data)%nat.
Proof.
  destruct (sample_run icon_server any_name_fs sample_data)
    as [[[data' results] w']| |] eqn:Hrun;
    [|vm_compute in Hrun; discriminate Hrun..].
  exists data', results, w'. split; [reflexivity|].
  exact (proj2 (tally_counts_every_record _ _ _ _ _ _ _ _ _ _
                  rev_completes _ _ _ _ _ _ _ _ Hrun)).
Defined.

Lemma run_without_success_returns_input_witness :
  exists data' results w',
    sample_run not_found_server any_name_fs sample_data = Ret (data', results, w')
    ∧ success_infos results = []
    ∧ data' = sample_data.
Proof.
  destruct (sample_run not_found_server any_name_fs sample_data)
    as [[[data' results] w']| |] eqn:Hrun;
    [|vm_compute in Hrun; discriminate Hrun..].
  assert (Hnone : success_infos results = []).
  { vm_compute in Hrun. by injection Hrun as _ <- _. }
  exists data', results, w'. split; [reflexivity|]. split; [exact Hnone|].
  exact (run_without_success_returns_input _ _ _ _ _ _ _ _ _ _
           rev_completes _ _ _ _ _ _ _ _ Hrun Hnone).
Defined.
